(** * ndServiceRegistry.watcher: the [Watcher] class

    A shallow embedding of [ndServiceRegistry/watcher.py].  The [Watcher]
    object keeps a cached copy of a Zookeeper node (its data, its stat and the
    data of its children), refreshed by two Kazoo watches, and runs the
    registered callbacks after each refresh.

    Python objects that the class mutates or shares are kept in a store:
    the [_children] attribute is a reference to a dict object, and the dict
    returned by [get()] holds that same reference.  Calls that leave the class
    (the Zookeeper client, the logger, the callbacks) are recorded in a trace,
    and what they answer is given by an environment. *)

From Stdlib Require Import ZArith String List.
From stdpp Require Import base option list strings gmap.

Open Scope string_scope.
Open Scope list_scope.

(** ** Values that cross the boundary of the class *)

(** [ZnodeStat], the namedtuple Kazoo returns (the fields of the docstring of
    [Watcher]). *)
Record ZnodeStat := {
  czxid : Z; mzxid : Z; ctime : Z; mtime : Z; version : Z; cversion : Z;
  aversion : Z; ephemeralOwner : Z; dataLength : Z; numChildren : Z;
  pzxid : Z }.

(** [if stat:] a [ZnodeStat] is a tuple of eleven fields, so it is true
    whenever it is not [None]. *)
Definition truthy {A : Type} (o : option A) : bool :=
  match o with Some _ => true | None => false end.

(** Exceptions: the ones Kazoo raises and whatever a callback raises. *)
Inductive Exn :=
| NoNodeError
| ConnectionLoss
| SessionExpiredError
| OtherError (name : string).

(** A callable handed to the watcher.  [callback == existing_callback] on
    Python functions is identity, hence a name with decidable equality. *)
Abbreviation Callback := nat (only parsing).

(** References to dict objects of the Python heap. *)
Abbreviation loc := nat (only parsing).

Inductive LogLevel := DEBUG | WARNING.

(** Where a callback is called from: line 125 ([add_callback]) or line 182
    ([_execute_callbacks]). *)
Inductive CallSite := line125 | line182.

(** How a call ends: it returns a value or raises. *)
Inductive outcome (A : Type) :=
| Ok (a : A)
| Raise (e : Exn).
Arguments Ok {A} a.
Arguments Raise {A} e.

Section Model.

(** The decoded form of a node's data; [None] is Python's [None]. *)
Context {value : Type}.

(** [funcs.decode], from [ndServiceRegistry/funcs.py] (not part of this
    file): the argument is the raw string read from Zookeeper, or [None].
    Where a property needs it, that [decode None] is [None] (no data for a
    node that does not exist) is a hypothesis of its statement. *)
Variable decode : option string -> option value.

(** The dict [get()] returns: four keys, of which ['children'] holds a
    reference to the dict object [self._children] points to. *)
Record Snapshot := {
  stat : option ZnodeStat;
  path : string;
  data : option value;
  children : loc }.

Inductive Event :=
| EvGet (p : string)        (* self._zk.retry(self._zk.get, p) *)
| EvExists (p : string)     (* self._zk.exists(p) *)
| EvLog (lvl : LogLevel) (msg : string)
| EvCallback (site : CallSite) (callback : Callback) (arg : Snapshot).

(** The attributes of a [Watcher] object. *)
Record Watcher := {
  _path : string;
  _watch_children : bool;
  _children : loc;
  _data : option value;
  _stat : option ZnodeStat;
  _callbacks : list Callback;
  _state : bool }.

(** The object, the dict objects of the heap, the watches registered with the
    client, and the trace of outside calls so far. *)
Record World := {
  self : Watcher;
  heap : gmap loc (gmap string (option value));
  data_watch : bool;
  children_watch : bool;
  trace : list Event }.

(** What the outside answers while one method or handler runs:
    - [zk_get p]: [self._zk.retry(self._zk.get, p)], a pair of the raw data
      and the stat, or an exception once the client's retries are used up;
    - [zk_exists p]: [self._zk.exists(p)], a stat or [None];
    - [DataWatch_delivers], [ChildrenWatch_delivers]: the notifications the
      client hands to a handler synchronously, inside the registration call
      (Kazoo delivers the current state once; a client that only notifies of
      later changes delivers none);
    - [call cb s]: whether the callable returns ([None]) or raises. *)
Record Env := {
  zk_get : string -> outcome (option string * ZnodeStat);
  zk_exists : string -> outcome (option ZnodeStat);
  DataWatch_delivers : list (option ZnodeStat);
  ChildrenWatch_delivers : list (list string);
  call : Callback -> Snapshot -> option Exn }.

(** ** State and exceptions

    A raised exception keeps the world as it was when it was raised: the
    object is not rolled back. *)
Definition M (A : Type) : Type := World -> outcome A * World.

Definition ret {A} (a : A) : M A := fun w => (Ok a, w).

Definition bind {A B} (c : M A) (k : A -> M B) : M B :=
  fun w => match c w with
           | (Ok a, w') => k a w'
           | (Raise e, w') => (Raise e, w')
           end.

Notation "x <- c ;; k" := (bind c (fun x => k))
  (at level 100, c at next level, right associativity).
Notation "c ;; k" := (bind c (fun _ => k))
  (at level 100, right associativity).

(** [for x in xs: body(x)] *)
Fixpoint for_each {A} (xs : list A) (body : A -> M unit) : M unit :=
  match xs with
  | [] => ret tt
  | x :: rest => body x ;; for_each rest body
  end.

Definition emit (ev : Event) : M unit :=
  fun w => (Ok tt, {| self := self w; heap := heap w;
                      data_watch := data_watch w;
                      children_watch := children_watch w;
                      trace := trace w ++ [ev] |}).

Definition log (lvl : LogLevel) (msg : string) : M unit := emit (EvLog lvl msg).

Definition read {A} (field : Watcher -> A) : M A := fun w => (Ok (field (self w)), w).

Definition update (f : Watcher -> Watcher) : M unit :=
  fun w => (Ok tt, {| self := f (self w); heap := heap w;
                      data_watch := data_watch w;
                      children_watch := children_watch w;
                      trace := trace w |}).

Definition set_children (l : loc) (s : Watcher) : Watcher :=
  {| _path := _path s; _watch_children := _watch_children s; _children := l;
     _data := _data s; _stat := _stat s; _callbacks := _callbacks s;
     _state := _state s |}.

Definition set_data (d : option value) (s : Watcher) : Watcher :=
  {| _path := _path s; _watch_children := _watch_children s;
     _children := _children s; _data := d; _stat := _stat s;
     _callbacks := _callbacks s; _state := _state s |}.

Definition set_stat (st : option ZnodeStat) (s : Watcher) : Watcher :=
  {| _path := _path s; _watch_children := _watch_children s;
     _children := _children s; _data := _data s; _stat := st;
     _callbacks := _callbacks s; _state := _state s |}.

Definition set_callbacks (cbs : list Callback) (s : Watcher) : Watcher :=
  {| _path := _path s; _watch_children := _watch_children s;
     _children := _children s; _data := _data s; _stat := _stat s;
     _callbacks := cbs; _state := _state s |}.

Definition set_state (b : bool) (s : Watcher) : Watcher :=
  {| _path := _path s; _watch_children := _watch_children s;
     _children := _children s; _data := _data s; _stat := _stat s;
     _callbacks := _callbacks s; _state := b |}.

(** [{}]: a new, empty dict object. *)
Definition new_dict : M loc :=
  fun w => let l := fresh (dom (heap w)) in
           (Ok l, {| self := self w; heap := <[l := ∅]> (heap w);
                     data_watch := data_watch w;
                     children_watch := children_watch w;
                     trace := trace w |}).

(** [d[k] = v] on the dict object at [l], in place. *)
Definition dict_setitem (l : loc) (k : string) (v : option value) : M unit :=
  fun w => (Ok tt, {| self := self w; heap := alter (insert k v) l (heap w);
                      data_watch := data_watch w;
                      children_watch := children_watch w;
                      trace := trace w |}).

(** [self._zk.retry(self._zk.get, p)] *)
Definition retry_get (env : Env) (p : string) : M (option string * ZnodeStat) :=
  emit (EvGet p) ;; fun w => (zk_get env p, w).

(** [self._zk.exists(p)] *)
Definition exists_ (env : Env) (p : string) : M (option ZnodeStat) :=
  emit (EvExists p) ;; fun w => (zk_exists env p, w).

(** [callback(arg)] *)
Definition invoke (env : Env) (site : CallSite) (callback : Callback)
    (arg : Snapshot) : M unit :=
  emit (EvCallback site callback arg) ;;
  fun w => (match call env callback arg with
            | None => Ok tt
            | Some e => Raise e
            end, w).

(** ** The methods of [Watcher] *)

(** [get] (lines 93-100). *)
Definition snapshot (s : Watcher) : Snapshot :=
  {| stat := _stat s; path := _path s; data := _data s;
     children := _children s |}.

Definition get : M Snapshot := read snapshot.

(** [stop], [start], [state] (lines 102-114). *)
Definition stop : M unit := update (set_state false).
Definition start : M unit := update (set_state true).
Definition state : M bool := read _state.

(** The loop of [add_callback] (lines 118-122): [true] when it reaches the
    [return]. *)
Fixpoint already_exists (callback : Callback) (callbacks : list Callback) : bool :=
  match callbacks with
  | [] => false
  | existing_callback :: rest =>
      if decide (callback = existing_callback) then true
      else already_exists callback rest
  end.

(** [add_callback] (lines 116-125). *)
Definition add_callback (env : Env) (callback : Callback) : M unit :=
  callbacks <- read _callbacks ;;
  if already_exists callback callbacks then
    log WARNING "Callback [%s] already exists. Not triggering again."
  else
    update (set_callbacks (callbacks ++ [callback])) ;;
    arg <- get ;;
    invoke env line125 callback arg.

(** [_execute_callbacks] (lines 168-182). *)
Definition _execute_callbacks (env : Env) : M unit :=
  log DEBUG "execute_callbacks triggered" ;;
  active <- state ;;
  if negb active then
    log DEBUG "self.state() is False - not executing callbacks."
  else
    callbacks <- read _callbacks ;;
    for_each callbacks (fun callback =>
      log WARNING "Executing callback %s" ;;
      arg <- get ;;
      invoke env line182 callback arg).

(** [_update_root_data] (lines 131-150), the handler of the data watch.
    Line 141 assigns the fetched stat to [self._stat]; line 147 then assigns
    the stat of the notification. *)
Definition _update_root_data (env : Env) (data : option string)
    (stat : option ZnodeStat) : M unit :=
  log DEBUG "Data change detected" ;;
  data <- (if truthy stat then
             log DEBUG "Node is registered." ;;
             p <- read _path ;;
             fetched <- retry_get env p ;;
             update (set_stat (Some (snd fetched))) ;;
             ret (fst fetched)
           else
             log DEBUG "Node is not registered." ;;
             ret data) ;;
  update (set_data (decode data)) ;;
  update (set_stat stat) ;;
  log DEBUG "Data: %s, Stat: %s" ;;
  _execute_callbacks env.

(** [_update_child_list] (lines 158-166), the handler of the children watch.
    The loop runs over the list the handler was called with: rebinding the
    name [data] in its body does not change what the iterator walks. *)
Definition _update_child_list (env : Env) (data : list string) : M unit :=
  log DEBUG "New children: %s" ;;
  children <- new_dict ;;
  for_each data (fun child =>
    p <- read _path ;;
    let fullpath := p +:+ "/" +:+ child in
    fetched <- retry_get env fullpath ;;
    dict_setitem children child (decode (fst fetched))) ;;
  update (set_children children) ;;
  _execute_callbacks env.

(** The client takes note of a handler: from then on the watch is armed. *)
Definition arm_data_watch : M unit :=
  fun w => (Ok tt, {| self := self w; heap := heap w; data_watch := true;
                      children_watch := children_watch w;
                      trace := trace w |}).

Definition arm_children_watch : M unit :=
  fun w => (Ok tt, {| self := self w; heap := heap w;
                      data_watch := data_watch w; children_watch := true;
                      trace := trace w |}).

(** [@self._zk.DataWatch(self._path, allow_missing_node=True)]: registers the
    handler; with [allow_missing_node] the data passed to it is always [None]
    (comment of lines 134-138). *)
Definition DataWatch (env : Env)
    (handler : option string -> option ZnodeStat -> M unit) : M unit :=
  arm_data_watch ;;
  for_each (DataWatch_delivers env) (fun st => handler None st).

(** [@self._zk.ChildrenWatch(self._path)] *)
Definition ChildrenWatch (env : Env) (handler : list string -> M unit) : M unit :=
  arm_children_watch ;;
  for_each (ChildrenWatch_delivers env) handler.

(** [_begin] (lines 127-166).  In [exists(...) and self._watch_children] the
    call to [exists] is the left operand: it is made whatever the flag is. *)
Definition _begin (env : Env) : M unit :=
  log DEBUG "Registering watch on data changes" ;;
  DataWatch env (_update_root_data env) ;;
  p <- read _path ;;
  found <- exists_ env p ;;
  watch_children <- read _watch_children ;;
  if truthy found && watch_children then
    log DEBUG "Registering watch on child changes" ;;
    ChildrenWatch env (_update_child_list env)
  else ret tt.

(** [__init__] (lines 66-91): the attributes, then [_begin].  The new object
    starts from a heap that holds only its own empty [_children] dict. *)
Definition __init__ (env : Env) (path : string) (callback : option Callback)
    (watch_children : bool) : outcome unit * World :=
  let l := fresh (dom (∅ : gmap loc (gmap string (option value)))) in
  _begin env
    {| self := {| _path := path; _watch_children := watch_children;
                  _children := l; _data := None; _stat := None;
                  _callbacks := match callback with
                                | Some cb => [cb]
                                | None => []
                                end;
                  _state := true |};
       heap := {[ l := ∅ ]};
       data_watch := false; children_watch := false;
       trace := [] |}.

(** ** The life of a watcher

    What happens to an object once it is built: the application calls its
    public methods, and the client runs a handler when a watch fires.  A
    handler runs only if its watch was registered.  The world after a call is
    kept whether the call returned or raised. *)
Inductive Call :=
| CallGet
| CallStop
| CallStart
| CallState
| CallAddCallback (callback : Callback)
| FireDataWatch (stat : option ZnodeStat)
| FireChildrenWatch (names : list string).

Definition perform (env : Env) (c : Call) (w : World) : World :=
  match c with
  | CallGet => snd (get w)
  | CallStop => snd (stop w)
  | CallStart => snd (start w)
  | CallState => snd (state w)
  | CallAddCallback callback => snd (add_callback env callback w)
  | FireDataWatch st =>
      if data_watch w then snd (_update_root_data env None st w) else w
  | FireChildrenWatch names =>
      if children_watch w then snd (_update_child_list env names w) else w
  end.

(** The environment may differ from one call to the next: the content of
    Zookeeper changes between them. *)
Fixpoint run (calls : list (Env * Call)) (w : World) : World :=
  match calls with
  | [] => w
  | (env, c) :: rest => run rest (perform env c w)
  end.

Inductive reachable : World -> Prop :=
| reachable_init env path callback watch_children :
    reachable (snd (__init__ env path callback watch_children))
| reachable_perform env c w :
    reachable w -> reachable (perform env c w).

(** ** Reading a trace *)

(** The paths fetched with [get], in order. *)
Definition fetches (tr : list Event) : list string :=
  omap (fun ev => match ev with EvGet p => Some p | _ => None end) tr.

(** The paths checked with [exists], in order. *)
Definition exists_checks (tr : list Event) : list string :=
  omap (fun ev => match ev with EvExists p => Some p | _ => None end) tr.

(** The callback invocations, in order. *)
Definition invocations (tr : list Event) : list (CallSite * Callback * Snapshot) :=
  omap (fun ev => match ev with
                  | EvCallback site cb arg => Some (site, cb, arg)
                  | _ => None
                  end) tr.

(** The warnings logged, in order. *)
Definition warnings (tr : list Event) : list string :=
  omap (fun ev => match ev with EvLog WARNING msg => Some msg | _ => None end) tr.

(** The content of the dict a snapshot's ['children'] refers to. *)
Definition children_of (w : World) (s : Snapshot) : option (gmap string (option value)) :=
  heap w !! children s.

(** ** Vocabulary of the proofs *)

(** The world with more events at the end of its trace. *)
Definition add_trace (tr : list Event) (w : World) : World :=
  {| self := self w; heap := heap w; data_watch := data_watch w;
     children_watch := children_watch w; trace := trace w ++ tr |}.

(** The world with another value for the object's attributes. *)
Definition with_self (s : Watcher) (w : World) : World :=
  {| self := s; heap := heap w; data_watch := data_watch w;
     children_watch := children_watch w; trace := trace w |}.

(** The world with another heap. *)
Definition with_heap (h : gmap loc (gmap string (option value))) (w : World) : World :=
  {| self := self w; heap := h; data_watch := data_watch w;
     children_watch := children_watch w; trace := trace w |}.

(** A computation keeps [I]: from a world in [I] it ends in a world in [I],
    whether it returns or raises. *)
Definition preserves {A} (I : World -> Prop) (c : M A) : Prop :=
  forall w, I w -> I (snd (c w)).

(** A computation only talks: it changes nothing but the trace, and each
    event it adds satisfies [P]. *)
Definition only_emits {A} (P : Event -> Prop) (c : M A) : Prop :=
  forall w, exists tr, snd (c w) = add_trace tr w /\ Forall P tr.

(** Events of [_execute_callbacks]: log lines and calls from line 182. *)
Definition from_dispatch (ev : Event) : Prop :=
  match ev with
  | EvLog _ _ => True
  | EvCallback line182 _ _ => True
  | _ => False
  end.

(** Events of the handlers: those of the dispatch, and fetches. *)
Definition from_handler (ev : Event) : Prop :=
  match ev with
  | EvGet _ => True
  | _ => from_dispatch ev
  end.

(** The raw data [get] answers for the child [child] of [p] ([None] too when
    the call raises). *)
Definition fetched_data (env : Env) (p child : string) : option string :=
  match zk_get env (p +:+ "/" +:+ child) with
  | Ok (raw, _) => raw
  | Raise _ => None
  end.

(** Every callable returns. *)
Definition callbacks_return (env : Env) : Prop :=
  forall cb arg, call env cb arg = None.

(** What can be said of a run of [_execute_callbacks] that ended with [o]
    after it added the events [tr], when the flag was [active]: the events are
    those of the dispatch; when paused, no callback was called and the run
    returned; it returns whenever the callbacks do. *)
Definition dispatch_result (env : Env) (active : bool) (o : outcome unit)
    (tr : list Event) : Prop :=
  Forall from_dispatch tr
  /\ (active = false -> invocations tr = [] /\ o = Ok tt)
  /\ (callbacks_return env -> o = Ok tt).

(** What a run of either handler guarantees about the attributes [s'] and
    the heap [h'] it leaves, from the world [w] it started in: the
    configuration, the registry and the flag are as before; a missing stat
    comes with the data decoded from [None], unless both were kept; the dicts
    that existed are untouched; [_children] is as before or refers to a dict
    of the new heap. *)
Definition handler_guarantee (w : World) (s' : Watcher)
    (h' : gmap loc (gmap string (option value))) : Prop :=
  _path s' = _path (self w)
  /\ _watch_children s' = _watch_children (self w)
  /\ _callbacks s' = _callbacks (self w)
  /\ _state s' = _state (self w)
  /\ (_stat s' = None ->
        _data s' = decode None
        \/ (_data s' = _data (self w) /\ _stat (self w) = None))
  /\ (forall l, l ∈ dom (heap w) -> h' !! l = heap w !! l)
  /\ (_children s' = _children (self w) \/ is_Some (h' !! _children s')).

(** A property of worlds that no run of a handler can break. *)
Definition stable (I : World -> Prop) : Prop :=
  forall w tr s' h',
    I w -> Forall from_handler tr -> handler_guarantee w s' h' ->
    I (add_trace tr (with_self s' (with_heap h' w))).

(** A property that reads the object, the heap and the callback invocations
    of the trace, and nothing else of the world. *)
Definition about_object (I : World -> Prop) : Prop :=
  forall w w',
    self w' = self w -> heap w' = heap w ->
    invocations (trace w') = invocations (trace w) ->
    I w -> I w'.

(** The side of the world the handlers never write: the configuration, the
    registered watches, and the existence checks made so far. *)
Definition registration (p : string) (wc dw cw : bool) (checks : list string)
    (w : World) : Prop :=
  _path (self w) = p
  /\ _watch_children (self w) = wc
  /\ data_watch w = dw
  /\ children_watch w = cw
  /\ exists_checks (trace w) = checks.

(** The calls the client makes: a watch fires. *)
Definition is_notification (c : Call) : Prop :=
  match c with
  | FireDataWatch _ | FireChildrenWatch _ => True
  | _ => False
  end.

(** A property that does not read the registry, the flag or the trace. *)
Definition registry_blind (I : World -> Prop) : Prop :=
  forall w tr cbs b,
    I w -> I (add_trace tr (with_self (set_state b (set_callbacks cbs (self w))) w)).

(** What a holder of the snapshot [s] reads through it in the world [w]: the
    three values it holds, and the content of the dict it refers to. *)
Definition contents (w : World) (s : Snapshot) :
    option ZnodeStat * string * option value * option (gmap string (option value)) :=
  (stat s, path s, data s, heap w !! children s).

(** The invariant of the cache: no data without a stat. *)
Definition stat_guards_data (w : World) : Prop :=
  _stat (self w) = None -> _data (self w) = None.

(** [_children] refers to a dict object of the heap. *)
Definition children_allocated (w : World) : Prop :=
  is_Some (heap w !! _children (self w)).

(** Every callback invocation so far was made by [_execute_callbacks]. *)
Definition dispatched_only (w : World) : Prop :=
  Forall (fun i => i.1.1 = line182) (invocations (trace w)).

(** How many times the path [p] was fetched. *)
Definition fetch_count (tr : list Event) (p : string) : nat :=
  length (filter (fun q => q = p) (fetches tr)).

(** The events of one turn of the loop of [_execute_callbacks] for the
    callback [cb], called with [arg]. *)
Definition dispatch_turn (arg : Snapshot) (cb : Callback) : list Event :=
  [EvLog WARNING "Executing callback %s"; EvCallback line182 cb arg].

(** The calls that set the flag. *)
Definition is_flag_call (c : Call) : Prop :=
  match c with
  | CallStart | CallStop => True
  | _ => False
  end.

(** The value [start()] or [stop()] gives the flag. *)
Definition flag_of (c : Call) : bool :=
  match c with
  | CallStop => false
  | _ => true
  end.

(** [_children] refers to an empty dict. *)
Definition children_empty (w : World) : Prop :=
  heap w !! _children (self w) = Some ∅.

End Model.

(** * A sample service

    The watcher of [/services/foo], as in the docstring of [Watcher], with
    strings for decoded data. *)

(** A stand-in for [funcs.decode]: a node without data decodes to [None], any
    other string is kept as it is. *)
Definition sample_decode (raw : option string) : option string :=
  match raw with
  | Some s => if decide (s = "") then None else Some s
  | None => None
  end.

Definition stat_version (v : Z) : ZnodeStat :=
  {| czxid := 116; mzxid := 4032; ctime := 1355424939217;
     mtime := 1355523495703; version := v; cversion := 1912; aversion := 0;
     ephemeralOwner := 0; dataLength := 9; numChildren := 2; pzxid := 8388 |}.

(** Zookeeper holding [/services/foo] at version 5 with the children
    [node1:22] and [node2:22]; the client delivers the current state when a
    watch is registered, as Kazoo does. *)
Definition foo_service : @Env string :=
  {| zk_get := fun p =>
       if decide (p = "/services/foo") then Ok (Some "env=prod", stat_version 5)
       else if decide (p = "/services/foo/node1:22") then Ok (Some "w=1", stat_version 0)
       else if decide (p = "/services/foo/node2:22") then Ok (Some "w=2", stat_version 0)
       else Raise NoNodeError;
     zk_exists := fun p =>
       if decide (p = "/services/foo") then Ok (Some (stat_version 5)) else Ok None;
     DataWatch_delivers := [Some (stat_version 5)];
     ChildrenWatch_delivers := [["node1:22"; "node2:22"]];
     call := fun _ _ => None |}.

(** Later: the data of [/services/foo] was written again (version 6),
    [node2:22] is gone and [node3:80] has come. *)
Definition foo_service_later : @Env string :=
  {| zk_get := fun p =>
       if decide (p = "/services/foo") then Ok (Some "env=staging", stat_version 6)
       else if decide (p = "/services/foo/node1:22") then Ok (Some "w=1", stat_version 0)
       else if decide (p = "/services/foo/node3:80") then Ok (Some "w=3", stat_version 0)
       else Raise NoNodeError;
     zk_exists := fun p =>
       if decide (p = "/services/foo") then Ok (Some (stat_version 6)) else Ok None;
     DataWatch_delivers := [Some (stat_version 6)];
     ChildrenWatch_delivers := [["node1:22"; "node3:80"]];
     call := fun _ _ => None |}.

(** A client that cannot reach Zookeeper for the existence check, and that
    delivers nothing on registration. *)
Definition foo_unreachable : @Env string :=
  {| zk_get := fun _ => Raise ConnectionLoss;
     zk_exists := fun _ => Raise ConnectionLoss;
     DataWatch_delivers := [];
     ChildrenWatch_delivers := [];
     call := fun _ _ => None |}.

(** The same content as [foo_service], with a client that only notifies of
    later changes. *)
Definition foo_service_silent : @Env string :=
  {| zk_get := zk_get foo_service;
     zk_exists := zk_exists foo_service;
     DataWatch_delivers := [];
     ChildrenWatch_delivers := [];
     call := fun _ _ => None |}.

(** [Watcher(zk, '/services/foo', callback=7)] *)
Definition foo_watcher : @World string :=
  snd (__init__ sample_decode foo_service "/services/foo" (Some 7) true).

(** The same watcher after [stop()]. *)
Definition foo_watcher_stopped : @World string :=
  perform sample_decode foo_service CallStop foo_watcher.

(** The same watcher after the node was reported missing. *)
Definition foo_watcher_missing : @World string :=
  perform sample_decode foo_service (FireDataWatch None) foo_watcher.

(** The content of [foo_service], with an application whose callback 8
    raises. *)
Definition foo_service_raising : @Env string :=
  {| zk_get := zk_get foo_service;
     zk_exists := zk_exists foo_service;
     DataWatch_delivers := DataWatch_delivers foo_service;
     ChildrenWatch_delivers := ChildrenWatch_delivers foo_service;
     call := fun cb _ => if decide (cb = 8) then Some (OtherError "ValueError") else None |}.

(** The watcher with two more callbacks registered. *)
Definition foo_watcher_three : @World string :=
  run sample_decode
    [(foo_service, CallAddCallback 8); (foo_service, CallAddCallback 9)] foo_watcher.

(** * Properties *)

Section Properties.

Context {value : Type}.
Variable decode : option string -> option value.

Implicit Types (w : @World value) (env : @Env value) (tr : list (@Event value)).
Implicit Types (s : @Watcher value) (snap : @Snapshot value).

(** ** Worlds *)

Lemma add_trace_nil w : add_trace [] w = w.
Proof. destruct w; unfold add_trace; simpl. by rewrite app_nil_r. Qed.

Lemma add_trace_app tr1 tr2 w :
  add_trace tr2 (add_trace tr1 w) = add_trace (tr1 ++ tr2) w.
Proof. unfold add_trace; simpl. by rewrite app_assoc. Qed.

Lemma with_self_id w : with_self (self w) w = w.
Proof. by destruct w. Qed.

Lemma add_trace_with_self tr s w :
  add_trace tr (with_self s w) = with_self s (add_trace tr w).
Proof. done. Qed.

(** ** Sequencing *)

Lemma bind_ok {A B} (c : M A) (k : A -> M B) w a w' :
  c w = (Ok a, w') -> bind c k w = k a w'.
Proof. unfold bind. by intros ->. Qed.

Lemma bind_raise {A B} (c : M A) (k : A -> M B) w e w' :
  c w = (Raise e, w') -> bind c k w = (Raise e, w').
Proof. unfold bind. by intros ->. Qed.

Lemma preserves_ret {A} (I : @World value -> Prop) (a : A) : preserves I (ret a).
Proof. by intros w Hw. Qed.

Lemma preserves_read {A} (I : @World value -> Prop) (field : Watcher -> A) :
  preserves I (read field).
Proof. by intros w Hw. Qed.

Lemma preserves_bind {A B} (I : @World value -> Prop) (c : M A) (k : A -> M B) :
  preserves I c -> (forall a, preserves I (k a)) -> preserves I (bind c k).
Proof.
  intros Hc Hk w Hw. unfold bind. specialize (Hc w Hw).
  destruct (c w) as [[a|e] w1]; simpl in *; [by apply Hk | done].
Qed.

Lemma preserves_for_each {A} (I : @World value -> Prop) (xs : list A) body :
  (forall x, preserves I (body x)) -> preserves I (for_each xs body).
Proof.
  intros Hbody. induction xs as [|x xs IH]; simpl.
  - apply preserves_ret.
  - apply preserves_bind; [apply Hbody | intros _; apply IH].
Qed.

Lemma only_emits_preserves {A} (P : @Event value -> Prop) (I : @World value -> Prop) (c : M A) :
  only_emits P c ->
  (forall tr w, Forall P tr -> I w -> I (add_trace tr w)) ->
  preserves I c.
Proof.
  intros Hc HI w Hw. destruct (Hc w) as (tr & -> & Htr). by apply HI.
Qed.

Lemma only_emits_weaken {A} (P Q : @Event value -> Prop) (c : M A) :
  (forall ev, P ev -> Q ev) -> only_emits P c -> only_emits Q c.
Proof.
  intros HPQ Hc w. destruct (Hc w) as (tr & Heq & Htr).
  exists tr. split; [done|]. eapply Forall_impl; eauto.
Qed.

Lemma only_emits_ret {A} (P : @Event value -> Prop) (a : A) : only_emits P (ret a).
Proof. intros w. exists []. by rewrite add_trace_nil. Qed.

Lemma only_emits_read {A} (P : @Event value -> Prop) (field : Watcher -> A) : only_emits P (read field).
Proof. intros w. exists []. by rewrite add_trace_nil. Qed.

Lemma only_emits_emit (P : @Event value -> Prop) ev : P ev -> only_emits P (emit ev).
Proof. intros Hev w. exists [ev]. split; [done | by constructor]. Qed.

Lemma only_emits_bind {A B} (P : @Event value -> Prop) (c : M A) (k : A -> M B) :
  only_emits P c -> (forall a, only_emits P (k a)) -> only_emits P (bind c k).
Proof.
  intros Hc Hk w. unfold bind. destruct (Hc w) as (tr1 & Heq1 & Htr1).
  destruct (c w) as [[a|e] w1]; simpl in *; subst w1.
  - destruct (Hk a (add_trace tr1 w)) as (tr2 & Heq2 & Htr2).
    exists (tr1 ++ tr2). rewrite Heq2, add_trace_app.
    split; [done | by apply Forall_app].
  - by exists tr1.
Qed.

Lemma only_emits_for_each {A} (P : @Event value -> Prop) (xs : list A) body :
  (forall x, only_emits P (body x)) -> only_emits P (for_each xs body).
Proof.
  intros Hbody. induction xs as [|x xs IH]; simpl.
  - apply only_emits_ret.
  - apply only_emits_bind; [apply Hbody | intros _; apply IH].
Qed.

Lemma only_emits_invoke (P : @Event value -> Prop) env site cb arg :
  P (EvCallback site cb arg) -> only_emits P (invoke env site cb arg).
Proof.
  intros Hev w. exists [EvCallback site cb arg].
  unfold invoke, bind, emit; simpl. split; [done | by constructor].
Qed.

(** ** Traces *)

Lemma fetches_app tr1 tr2 : fetches (tr1 ++ tr2) = fetches tr1 ++ fetches tr2.
Proof. apply omap_app. Qed.

Lemma exists_checks_app tr1 tr2 :
  exists_checks (tr1 ++ tr2) = exists_checks tr1 ++ exists_checks tr2.
Proof. apply omap_app. Qed.

Lemma invocations_app tr1 tr2 :
  invocations (tr1 ++ tr2) = invocations tr1 ++ invocations tr2.
Proof. apply omap_app. Qed.

Lemma warnings_app tr1 tr2 : warnings (tr1 ++ tr2) = warnings tr1 ++ warnings tr2.
Proof. apply omap_app. Qed.

Lemma gets_from_handler (ps : list string) :
  Forall from_handler (map (@EvGet value) ps).
Proof. induction ps; by constructor. Qed.

Lemma gets_invocations (ps : list string) :
  invocations (map (@EvGet value) ps) = [].
Proof. by induction ps. Qed.

Lemma child_gets_invocations (f : string -> string) (names : list string) :
  invocations (map (fun child => @EvGet value (f child)) names) = [].
Proof. by induction names. Qed.

Lemma from_dispatch_from_handler (ev : @Event value) :
  from_dispatch ev -> from_handler ev.
Proof. by destruct ev. Qed.

Lemma from_dispatch_fetches tr : Forall from_dispatch tr -> fetches tr = [].
Proof.
  induction 1 as [|ev tr Hev _ IH]; [done|].
  destruct ev as [| | |[]]; simpl in *; done.
Qed.

Lemma from_handler_exists_checks tr :
  Forall from_handler tr -> exists_checks tr = [].
Proof.
  induction 1 as [|ev tr Hev _ IH]; [done|].
  destruct ev as [| | |[]]; simpl in *; done.
Qed.

Lemma from_handler_invocations tr :
  Forall from_handler tr ->
  Forall (fun i => i.1.1 = line182) (invocations tr).
Proof.
  induction 1 as [|ev tr Hev _ IH]; [by constructor|].
  destruct ev as [| | |[]]; simpl in *; try done. by constructor.
Qed.

(** ** [_execute_callbacks] *)

Lemma _execute_callbacks_only_emits env :
  only_emits from_dispatch (_execute_callbacks env).
Proof.
  unfold _execute_callbacks.
  apply only_emits_bind; [by apply only_emits_emit | intros _].
  apply only_emits_bind; [apply only_emits_read | intros active].
  destruct (negb active); [by apply only_emits_emit|].
  apply only_emits_bind; [apply only_emits_read | intros cbs].
  apply only_emits_for_each. intros cb.
  apply only_emits_bind; [by apply only_emits_emit | intros _].
  apply only_emits_bind; [apply only_emits_read | intros arg].
  by apply only_emits_invoke.
Qed.

(** Paused: two debug lines, and nothing else happens. *)
Lemma _execute_callbacks_paused env w :
  _state (self w) = false ->
  _execute_callbacks env w =
    (Ok tt, add_trace [EvLog DEBUG "execute_callbacks triggered";
                       EvLog DEBUG "self.state() is False - not executing callbacks."] w).
Proof.
  intros Hpaused. unfold _execute_callbacks, bind, log, emit, state, read; simpl.
  rewrite Hpaused; simpl. unfold add_trace; simpl. by rewrite <- app_assoc.
Qed.

Lemma dispatch_loop_returns env (cbs : list nat) w :
  callbacks_return env ->
  fst (for_each cbs (fun callback =>
         bind (log WARNING "Executing callback %s") (fun _ =>
         bind get (fun arg => invoke env line182 callback arg))) w) = Ok tt.
Proof.
  intros Hret. revert w. induction cbs as [|cb cbs IH]; intros w; [done|].
  simpl. unfold bind at 1. unfold bind at 1.
  unfold log, emit, get, read, invoke, bind at 1 2 3; simpl.
  rewrite Hret. apply IH.
Qed.

Lemma _execute_callbacks_returns env w :
  callbacks_return env -> fst (_execute_callbacks env w) = Ok tt.
Proof.
  intros Hret. unfold _execute_callbacks.
  unfold bind at 1, log at 1, emit at 1. unfold bind at 1, state, read at 1.
  simpl. destruct (_state (self w)); simpl; [|done].
  unfold bind at 1, read at 1. simpl. by apply dispatch_loop_returns.
Qed.

Lemma _execute_callbacks_spec env w :
  exists o tr,
    _execute_callbacks env w = (o, add_trace tr w)
    /\ dispatch_result env (_state (self w)) o tr.
Proof.
  destruct (_state (self w)) eqn:Hstate.
  - destruct (_execute_callbacks_only_emits env w) as (tr & Heq & Htr).
    pose proof (_execute_callbacks_returns env w) as Hret.
    destruct (_execute_callbacks env w) as [o w']. simpl in *. subst w'.
    exists o, tr. by repeat split.
  - rewrite _execute_callbacks_paused by done.
    eexists _, _. split; [done|]. by repeat split; repeat constructor.
Qed.

(** ** [_update_root_data] *)

(** The node is reported missing: no fetch, the data the handler was called
    with is decoded, and the stat is [None]. *)
Lemma _update_root_data_missing env d w :
  exists o tr,
    _update_root_data decode env d None w =
      (o, add_trace ([EvLog DEBUG "Data change detected";
                      EvLog DEBUG "Node is not registered.";
                      EvLog DEBUG "Data: %s, Stat: %s"] ++ tr)
            (with_self (set_stat None (set_data (decode d) (self w))) w))
    /\ dispatch_result env (_state (self w)) o tr.
Proof.
  unfold _update_root_data, bind, log, emit, update, ret; simpl.
  match goal with |- context [_execute_callbacks env ?w1] =>
    destruct (_execute_callbacks_spec env w1) as (o & tr & Heq & Hres)
  end.
  rewrite Heq. exists o, tr. split; [|done].
  unfold add_trace, with_self; simpl. by rewrite <- !app_assoc.
Qed.

(** The node is reported present and the fetch answers: the fetched data is
    decoded, and the stat kept is the one of the notification. *)
Lemma _update_root_data_fetched env d st w raw st' :
  zk_get env (_path (self w)) = Ok (raw, st') ->
  exists o tr,
    _update_root_data decode env d (Some st) w =
      (o, add_trace ([EvLog DEBUG "Data change detected";
                      EvLog DEBUG "Node is registered.";
                      EvGet (_path (self w)); EvLog DEBUG "Data: %s, Stat: %s"] ++ tr)
            (with_self (set_stat (Some st) (set_data (decode raw) (self w))) w))
    /\ dispatch_result env (_state (self w)) o tr.
Proof.
  intros Hget.
  unfold _update_root_data, bind, log, emit, update, ret, retry_get, read; simpl.
  rewrite Hget; simpl.
  match goal with |- context [_execute_callbacks env ?w1] =>
    destruct (_execute_callbacks_spec env w1) as (o & tr & Heq & Hres)
  end.
  rewrite Heq. exists o, tr. split; [|done].
  unfold add_trace, with_self; simpl. by rewrite <- !app_assoc.
Qed.

(** The node is reported present and the fetch raises: the handler stops
    there, and the object is as it was. *)
Lemma _update_root_data_failed env d st w e :
  zk_get env (_path (self w)) = Raise e ->
  _update_root_data decode env d (Some st) w =
    (Raise e, add_trace [EvLog DEBUG "Data change detected";
                         EvLog DEBUG "Node is registered."; EvGet (_path (self w))] w).
Proof.
  intros Hget.
  unfold _update_root_data, bind, log, emit, update, ret, retry_get, read; simpl.
  rewrite Hget; simpl. unfold add_trace; simpl. by rewrite <- !app_assoc.
Qed.

(** In all cases: only the attributes [_data] and [_stat] may change, the
    events are those of a handler, and no callback is called when the watcher
    is paused. *)
Lemma _update_root_data_effect env d st w :
  exists tr d' st',
    snd (_update_root_data decode env d st w) =
      add_trace tr (with_self (set_stat st' (set_data d' (self w))) w)
    /\ Forall from_handler tr
    /\ (st' = None -> d' = decode d \/ (d' = _data (self w) /\ st' = _stat (self w)))
    /\ (_state (self w) = false -> invocations tr = []).
Proof.
  destruct st as [st|].
  - destruct (zk_get env (_path (self w))) as [[raw st']|e] eqn:Hget.
    + destruct (_update_root_data_fetched env d st w raw st' Hget)
        as (o & tr & Heq & Htr & Hpaused & _).
      eexists _, (decode raw), (Some st). rewrite Heq.
      split; [done|]. split; [|split; [done|]].
      * apply Forall_app. split; [by repeat constructor|].
        eapply Forall_impl; [exact Htr | apply from_dispatch_from_handler].
      * intros Hstate. rewrite invocations_app. simpl. by apply Hpaused.
    + rewrite (_update_root_data_failed env d st w e Hget); simpl.
      eexists _, (_data (self w)), (_stat (self w)). split; [|split; [|split]].
      * f_equal. by destruct w as [[]].
      * by repeat constructor.
      * by right.
      * done.
  - destruct (_update_root_data_missing env d w) as (o & tr & Heq & Htr & Hpaused & _).
    eexists _, (decode d), None. rewrite Heq.
    split; [done|]. split; [|split; [by left|]].
    + apply Forall_app. split; [by repeat constructor|].
      eapply Forall_impl; [exact Htr | apply from_dispatch_from_handler].
    + intros Hstate. rewrite invocations_app. simpl. by apply Hpaused.
Qed.

(** ** [_update_child_list] *)

(** The body of the loop of lines 161-164, writing into the dict at [l]. *)
Local Abbreviation fetch_child env l :=
  (fun child : string =>
     bind (read _path) (fun p =>
     bind (retry_get env (p +:+ "/" +:+ child)) (fun fetched =>
     dict_setitem l child (decode (fst fetched))))).

Lemma alter_insert_dict (h : gmap nat (gmap string (option value))) l m k v :
  h !! l = Some m -> alter (insert k v) l h = <[l := <[k := v]> m]> h.
Proof.
  intros Hl. apply map_eq. intros i.
  rewrite lookup_alter, lookup_insert. case_decide; [|done].
  subst i. by rewrite Hl.
Qed.

(** One turn of the loop, when the fetch answers. *)
Lemma fetch_child_ok env l child w m raw st :
  heap w !! l = Some m ->
  zk_get env (_path (self w) +:+ "/" +:+ child) = Ok (raw, st) ->
  fetch_child env l child w =
    (Ok tt, add_trace [EvGet (_path (self w) +:+ "/" +:+ child)]
              (with_heap (<[l := <[child := decode raw]> m]> (heap w)) w)).
Proof.
  intros Hl Hget. unfold bind, read, retry_get, emit, dict_setitem; simpl.
  rewrite Hget; simpl. by rewrite (alter_insert_dict _ _ m).
Qed.

(** One turn of the loop, when the fetch raises. *)
Lemma fetch_child_failed env l child w e :
  zk_get env (_path (self w) +:+ "/" +:+ child) = Raise e ->
  fetch_child env l child w =
    (Raise e, add_trace [EvGet (_path (self w) +:+ "/" +:+ child)] w).
Proof.
  intros Hget. unfold bind, read, retry_get, emit; simpl. by rewrite Hget.
Qed.

(** The loop writes into the dict at [l] only, and only fetches. *)
Lemma fetch_loop_effect env l names w m :
  heap w !! l = Some m ->
  exists o m' ps,
    for_each names (fetch_child env l) w =
      (o, add_trace (map EvGet ps) (with_heap (<[l := m']> (heap w)) w)).
Proof.
  revert w m. induction names as [|child names IH]; intros w m Hl.
  - exists (Ok tt), m, []. simpl. unfold ret.
    rewrite add_trace_nil. f_equal. destruct w; unfold with_heap; simpl.
    by rewrite insert_id.
  - cbn [for_each].
    destruct (zk_get env (_path (self w) +:+ "/" +:+ child)) as [[raw st]|e] eqn:Hget.
    + erewrite bind_ok; [|by apply (fetch_child_ok env l child w m raw st)].
      set (w1 := add_trace _ _).
      destruct (IH w1 (<[child := decode raw]> m)) as (o & m' & ps & Heq).
      { subst w1; simpl. by rewrite lookup_insert_eq. }
      exists o, m', ((_path (self w) +:+ "/" +:+ child) :: ps).
      rewrite Heq. subst w1. unfold add_trace, with_heap; simpl.
      by rewrite insert_insert_eq, <- app_assoc.
    + erewrite bind_raise; [|by apply fetch_child_failed].
      exists (Raise e), m, [_path (self w) +:+ "/" +:+ child].
      f_equal. destruct w; unfold add_trace, with_heap; simpl.
      by rewrite insert_id.
Qed.

(** The loop when every fetch answers: one fetch per name, in order, and
    each name is written with its decoded data. *)
Lemma fetch_loop_ok env l names w m :
  heap w !! l = Some m ->
  (forall child, child ∈ names ->
     exists raw st, zk_get env (_path (self w) +:+ "/" +:+ child) = Ok (raw, st)) ->
  for_each names (fetch_child env l) w =
    (Ok tt,
     add_trace (map (fun child => EvGet (_path (self w) +:+ "/" +:+ child)) names)
       (with_heap
          (<[l := foldl (fun acc child =>
                    <[child := decode (fetched_data env (_path (self w)) child)]> acc)
                  m names]> (heap w)) w)).
Proof.
  revert w m. induction names as [|child names IH]; intros w m Hl Hok.
  - simpl. unfold ret. rewrite add_trace_nil. f_equal.
    destruct w; unfold with_heap; simpl. by rewrite insert_id.
  - cbn [for_each foldl map].
    destruct (Hok child) as (raw & st & Hget); [by left|].
    erewrite bind_ok; [|by apply (fetch_child_ok env l child w m raw st)].
    set (w1 := add_trace _ _).
    rewrite (IH w1 (<[child := decode raw]> m)).
    + subst w1. unfold add_trace, with_heap, fetched_data; simpl.
      rewrite Hget. by rewrite insert_insert_eq, <- app_assoc.
    + subst w1; simpl. by rewrite lookup_insert_eq.
    + intros c Hc. subst w1; simpl. apply Hok. by right.
Qed.

(** What the loop builds, entry by entry. *)
Lemma built_lookup_in (f : string -> option value) names (m : gmap string (option value)) child :
  child ∈ names ->
  foldl (fun acc c => <[c := f c]> acc) m names !! child = Some (f child).
Proof.
  revert m. induction names as [|c names IH]; intros m Hin.
  - by apply elem_of_nil in Hin.
  - simpl. destruct (decide (child ∈ names)) as [Hrest|Hrest]; [by apply IH|].
    apply elem_of_cons in Hin as [->|Hin]; [|done].
    clear IH. revert m. induction names as [|c' names IH]; intros m; simpl.
    + by rewrite lookup_insert_eq.
    + apply not_elem_of_cons in Hrest as [Hne Hrest].
      rewrite insert_insert_ne by done. by apply IH.
Qed.

Lemma built_lookup_out (f : string -> option value) names (m : gmap string (option value)) k :
  k ∉ names -> foldl (fun acc c => <[c := f c]> acc) m names !! k = m !! k.
Proof.
  revert m. induction names as [|c names IH]; intros m Hout; [done|].
  apply not_elem_of_cons in Hout as [Hne Hout]. simpl.
  rewrite IH by done. by rewrite lookup_insert_ne.
Qed.

Lemma built_dom (f : string -> option value) names (m : gmap string (option value)) :
  dom (foldl (fun acc c => <[c := f c]> acc) m names) = dom m ∪ list_to_set names.
Proof.
  revert m. induction names as [|c names IH]; intros m; simpl.
  - by rewrite (right_id_L ∅ (∪)).
  - rewrite IH, dom_insert_L.
    by rewrite (comm_L (∪) {[c]} (dom m)), <- (assoc_L (∪)).
Qed.

(** In all cases: a new dict object is made, [_children] refers either to
    it or to the dict it referred to before, and nothing else changes; no
    callback is called when the watcher is paused. *)
Lemma _update_child_list_effect env names w :
  exists tr m' s',
    snd (_update_child_list decode env names w) =
      add_trace tr (with_self s'
        (with_heap (<[fresh (dom (heap w)) := m']> (heap w)) w))
    /\ (s' = self w \/ s' = set_children (fresh (dom (heap w))) (self w))
    /\ Forall from_handler tr
    /\ (_state (self w) = false -> invocations tr = []).
Proof.
  unfold _update_child_list.
  unfold bind at 1, log at 1, emit at 1. unfold bind at 1, new_dict at 1.
  cbn beta iota zeta. cbn [self heap data_watch children_watch trace].
  set (l := fresh (dom (heap w))). set (w1 := Build_World _ (<[l := ∅]> _) _ _ _).
  destruct (fetch_loop_effect env l names w1 ∅) as (o & m' & ps & Heq).
  { subst w1; simpl. by rewrite lookup_insert_eq. }
  unfold bind at 1. rewrite Heq. destruct o as [[]|e].
  - unfold bind at 1, update at 1. cbn beta iota zeta.
    match goal with |- context [_execute_callbacks env ?w2] =>
      destruct (_execute_callbacks_spec env w2) as (o2 & tr2 & Heq2 & Htr2 & Hpaused & _)
    end.
    rewrite Heq2.
    exists ([EvLog DEBUG "New children: %s"] ++ map EvGet ps ++ tr2), m',
      (set_children l (self w)).
    split; [|split; [by right|split]].
    + subst w1. unfold add_trace, with_self, with_heap; simpl.
      by rewrite insert_insert_eq, <- !app_assoc.
    + apply Forall_app. split; [by repeat constructor|].
      apply Forall_app. split; [apply gets_from_handler|].
      eapply Forall_impl; [exact Htr2 | apply from_dispatch_from_handler].
    + intros Hstate. rewrite !invocations_app, gets_invocations. simpl.
      by apply Hpaused.
  - exists ([EvLog DEBUG "New children: %s"] ++ map EvGet ps), m', (self w).
    split; [|split; [by left|split]].
    + subst w1. unfold add_trace, with_self, with_heap; simpl.
      by rewrite insert_insert_eq, <- !app_assoc.
    + apply Forall_app. split; [by repeat constructor | apply gets_from_handler].
    + intros _. by rewrite invocations_app, gets_invocations.
Qed.

(** Every fetch answers: [_children] refers to the new dict, which holds
    what the loop built from the empty dict. *)
Lemma _update_child_list_fetched env names w :
  (forall child, child ∈ names ->
     exists raw st, zk_get env (_path (self w) +:+ "/" +:+ child) = Ok (raw, st)) ->
  exists o tr,
    _update_child_list decode env names w =
      (o,
       add_trace ([EvLog DEBUG "New children: %s"]
                  ++ map (fun child => EvGet (_path (self w) +:+ "/" +:+ child)) names
                  ++ tr)
         (with_self (set_children (fresh (dom (heap w))) (self w))
           (with_heap
             (<[fresh (dom (heap w)) :=
                  foldl (fun acc child =>
                    <[child := decode (fetched_data env (_path (self w)) child)]> acc)
                    ∅ names]> (heap w)) w)))
    /\ dispatch_result env (_state (self w)) o tr.
Proof.
  intros Hok. unfold _update_child_list.
  unfold bind at 1, log at 1, emit at 1. unfold bind at 1, new_dict at 1.
  cbn beta iota zeta. cbn [self heap data_watch children_watch trace].
  set (l := fresh (dom (heap w))). set (w1 := Build_World _ (<[l := ∅]> _) _ _ _).
  unfold bind at 1.
  rewrite (fetch_loop_ok env l names w1 ∅);
    [| by subst w1; simpl; rewrite lookup_insert_eq | by subst w1 ].
  unfold bind at 1, update at 1. cbn beta iota zeta.
  match goal with |- context [_execute_callbacks env ?w2] =>
    destruct (_execute_callbacks_spec env w2) as (o & tr & Heq & Hres)
  end.
  rewrite Heq. exists o, tr. split; [|done].
  f_equal. subst w1. unfold add_trace, with_self, with_heap; simpl.
  by rewrite insert_insert_eq, <- !app_assoc.
Qed.

(** ** What the handlers guarantee *)

Lemma with_heap_id w : with_heap (heap w) w = w.
Proof. by destruct w. Qed.

Lemma _update_root_data_guarantee env st w :
  exists tr s' h',
    snd (_update_root_data decode env None st w) =
      add_trace tr (with_self s' (with_heap h' w))
    /\ Forall from_handler tr
    /\ handler_guarantee decode w s' h'.
Proof.
  destruct (_update_root_data_effect env None st w)
    as (tr & d' & st' & Heq & Htr & Hd & _).
  exists tr, (set_stat st' (set_data d' (self w))), (heap w).
  rewrite with_heap_id. split; [done|]. split; [done|].
  repeat split; try done; simpl.
  - intros ->. destruct (Hd eq_refl) as [->|[-> <-]]; [by left | by right].
  - by left.
Qed.

Lemma _update_child_list_guarantee env names w :
  exists tr s' h',
    snd (_update_child_list decode env names w) =
      add_trace tr (with_self s' (with_heap h' w))
    /\ Forall from_handler tr
    /\ handler_guarantee decode w s' h'.
Proof.
  destruct (_update_child_list_effect env names w)
    as (tr & m' & s' & Heq & Hs' & Htr & _).
  exists tr, s', (<[fresh (dom (heap w)) := m']> (heap w)).
  split; [done|]. split; [done|].
  assert (Hold : forall l, l ∈ dom (heap w) ->
            <[fresh (dom (heap w)) := m']> (heap w) !! l = heap w !! l).
  { intros l Hl. rewrite lookup_insert_ne; [done|].
    intros <-. by apply (is_fresh (dom (heap w))). }
  destruct Hs' as [->| ->]; repeat split; try done; simpl.
  - by right.
  - by left.
  - by right.
  - right. rewrite lookup_insert_eq. by eexists.
Qed.

Lemma stable_data_handler (I : @World value -> Prop) env st :
  stable decode I -> preserves I (_update_root_data decode env None st).
Proof.
  intros HI w Hw.
  destruct (_update_root_data_guarantee env st w) as (tr & s' & h' & -> & Htr & HG).
  by apply HI.
Qed.

Lemma stable_child_handler (I : @World value -> Prop) env names :
  stable decode I -> preserves I (_update_child_list decode env names).
Proof.
  intros HI w Hw.
  destruct (_update_child_list_guarantee env names w) as (tr & s' & h' & -> & Htr & HG).
  by apply HI.
Qed.

Lemma stable_stat_guards_data :
  decode None = None -> stable decode stat_guards_data.
Proof.
  intros Hdec w tr s' h' Hw _ (_ & _ & _ & _ & Hd & _) Hnone. simpl in *.
  destruct (Hd Hnone) as [->|[-> Hold]]; [done | by apply Hw].
Qed.

Lemma stable_children_allocated : stable decode children_allocated.
Proof.
  intros w tr s' h' Hw _ (_ & _ & _ & _ & _ & Hold & Hc).
  unfold children_allocated in *; simpl.
  destruct Hc as [->|Hc]; [|done].
  rewrite Hold; [done|]. by apply elem_of_dom.
Qed.

Lemma stable_dispatched_only : stable decode dispatched_only.
Proof.
  intros w tr s' h' Hw Htr _. unfold dispatched_only in *; simpl.
  rewrite invocations_app. apply Forall_app. split; [done|].
  by apply from_handler_invocations.
Qed.

(** ** [_begin] and [__init__] *)

Lemma about_object_emit (I : @World value -> Prop) ev :
  about_object I ->
  (forall site cb arg, ev <> EvCallback site cb arg) ->
  preserves I (emit ev).
Proof.
  intros HI Hev w Hw. apply (HI w); [done | done | | done]. simpl.
  rewrite invocations_app. destruct ev; simpl; try by rewrite app_nil_r.
  by destruct (Hev site callback arg).
Qed.

Lemma about_object_exists_ (I : @World value -> Prop) env p :
  about_object I -> preserves I (exists_ env p).
Proof.
  intros HI w Hw. unfold exists_, bind, emit; simpl.
  apply (HI w); [done | done | | done]. simpl.
  rewrite invocations_app. simpl. by rewrite app_nil_r.
Qed.

Lemma about_object_arm_data_watch (I : @World value -> Prop) :
  about_object I -> preserves I arm_data_watch.
Proof. intros HI w Hw. by apply (HI w). Qed.

Lemma about_object_arm_children_watch (I : @World value -> Prop) :
  about_object I -> preserves I arm_children_watch.
Proof. intros HI w Hw. by apply (HI w). Qed.

Lemma _begin_preserves (I : @World value -> Prop) env :
  about_object I -> stable decode I -> preserves I (_begin decode env).
Proof.
  intros Habout Hstable. unfold _begin, DataWatch, ChildrenWatch, log.
  apply preserves_bind; [by apply about_object_emit | intros _].
  apply preserves_bind; [|intros _].
  { apply preserves_bind; [by apply about_object_arm_data_watch | intros _].
    apply preserves_for_each. intros st. by apply stable_data_handler. }
  apply preserves_bind; [apply preserves_read | intros p].
  apply preserves_bind; [by apply about_object_exists_ | intros found].
  apply preserves_bind; [apply preserves_read | intros wc].
  destruct (truthy found && wc); [|apply preserves_ret].
  apply preserves_bind; [by apply about_object_emit | intros _].
  apply preserves_bind; [by apply about_object_arm_children_watch | intros _].
  apply preserves_for_each. intros names. by apply stable_child_handler.
Qed.

Lemma about_object_stat_guards_data : about_object (@stat_guards_data value).
Proof. intros w w' Hs _ _ Hw. unfold stat_guards_data. by rewrite Hs. Qed.

Lemma about_object_children_allocated : about_object (@children_allocated value).
Proof. intros w w' Hs Hh _ Hw. unfold children_allocated. by rewrite Hs, Hh. Qed.

Lemma about_object_dispatched_only : about_object (@dispatched_only value).
Proof. intros w w' _ _ Ht Hw. unfold dispatched_only. by rewrite Ht. Qed.

(** ** The public methods *)

Lemma add_callback_effect env cb w :
  exists tr cbs,
    snd (add_callback env cb w) = add_trace tr (with_self (set_callbacks cbs (self w)) w).
Proof.
  unfold add_callback, bind, read, log, emit, update, get, invoke; simpl.
  destruct (already_exists cb (_callbacks (self w))); simpl.
  - eexists _, (_callbacks (self w)). unfold add_trace, with_self; simpl.
    f_equal. by destruct w as [[]].
  - eexists _, _. unfold add_trace, with_self; simpl. reflexivity.
Qed.

(** ** Paths of children *)

Lemma append_inj_l (p a b : string) : p +:+ a = p +:+ b -> a = b.
Proof. induction p as [|c p IH]; simpl; [done|]. intros [=]. by apply IH. Qed.

Lemma fullpath_inj (p a b : string) :
  p +:+ "/" +:+ a = p +:+ "/" +:+ b -> a = b.
Proof. intros H. apply append_inj_l in H. by injection H. Qed.

Lemma count_in_image (f : string -> string) (names : list string) child :
  (forall a b, f a = f b -> a = b) ->
  NoDup names ->
  length (filter (fun q => q = f child) (map f names)) =
    if decide (child ∈ names) then 1 else 0.
Proof.
  intros Hinj. induction 1 as [|c names Hc Hnd IH].
  - done.
  - cbn [map]. rewrite filter_cons. destruct (decide (f c = f child)) as [Heq|Hne].
    + apply Hinj in Heq. subst c. cbn [length]. rewrite IH.
      rewrite decide_False by done. by rewrite decide_True by left.
    + rewrite IH. destruct (decide (child ∈ names)) as [Hin|Hout].
      * by rewrite decide_True by (by right).
      * rewrite decide_False; [done|].
        intros [->|?]%elem_of_cons; [by apply Hne | done].
Qed.

Lemma fetches_gets (f : string -> string) (names : list string) :
  fetches (map (fun child => @EvGet value (f child)) names) = map f names.
Proof. induction names as [|c names IH]; simpl; [done|]. by f_equal. Qed.

(** ** The properties of the watcher *)

(** C2.  A child-change notification carrying distinct names, all of which
    can be fetched: [_children] then refers to a dict object that did not
    exist before; its keys are exactly the reported names; each name is
    mapped to the decoded data fetched for that child; a key that is not
    reported is absent, whatever the previous dict held; the handler fetched
    the reported children, once each, and nothing else; and it returns
    normally when the callbacks do. *)
Theorem C2_children_rebuilt env names w :
  NoDup names ->
  (forall child, child ∈ names ->
     exists raw st, zk_get env (_path (self w) +:+ "/" +:+ child) = Ok (raw, st)) ->
  exists o w' tr m',
    _update_child_list decode env names w = (o, w')
    /\ (callbacks_return env -> o = Ok tt)
    /\ (_children (self w') ∉ dom (heap w))
    /\ heap w' !! _children (self w') = Some m'
    /\ dom m' = list_to_set names
    /\ (forall child raw st, child ∈ names ->
          zk_get env (_path (self w) +:+ "/" +:+ child) = Ok (raw, st) ->
          m' !! child = Some (decode raw))
    /\ (forall k, k ∉ names -> m' !! k = None)
    /\ trace w' = trace w ++ tr
    /\ fetches tr = map (fun child => _path (self w) +:+ "/" +:+ child) names
    /\ (forall child,
          fetch_count tr (_path (self w) +:+ "/" +:+ child) =
            if decide (child ∈ names) then 1 else 0).
Proof.
  intros Hnd Hok.
  destruct (_update_child_list_fetched env names w Hok)
    as (o & tr & Heq & Htr & _ & Hret).
  eexists o, _, _, _. split; [exact Heq|]. split; [exact Hret|].
  cbn [self heap trace add_trace with_self with_heap set_children _children].
  assert (Hf : fetches
            ([EvLog DEBUG "New children: %s"]
             ++ map (fun child => EvGet (_path (self w) +:+ "/" +:+ child)) names
             ++ tr)
          = map (fun child => _path (self w) +:+ "/" +:+ child) names).
  { rewrite !fetches_app, (from_dispatch_fetches tr Htr), app_nil_r.
    simpl. apply (fetches_gets (fun child => _path (self w) +:+ "/" +:+ child)). }
  repeat split.
  - apply is_fresh.
  - by rewrite lookup_insert_eq.
  - by rewrite built_dom, dom_empty_L, (left_id_L ∅ (∪)).
  - intros child raw st Hin Hget.
    rewrite (built_lookup_in
               (fun c => decode (fetched_data env (_path (self w)) c))) by done.
    unfold fetched_data. by rewrite Hget.
  - intros k Hk.
    by rewrite (built_lookup_out
                  (fun c => decode (fetched_data env (_path (self w)) c))).
  - exact Hf.
  - intros child. unfold fetch_count. rewrite Hf.
    apply (count_in_image (fun c => _path (self w) +:+ "/" +:+ c)); [|done].
    intros a b. apply fullpath_inj.
Qed.

(** ** Calls on a built watcher *)

Lemma perform_preserves (I : @World value -> Prop) env c :
  stable decode I -> registry_blind I -> forall w, I w -> I (perform decode env c w).
Proof.
  intros Hstable Hblind w Hw.
  assert (Hsame : forall b, I (with_self (set_state b (self w)) w)).
  { intros b. pose proof (Hblind w [] (_callbacks (self w)) b Hw) as H.
    rewrite add_trace_nil in H. by destruct w as [[]]. }
  destruct c; simpl; try done.
  - apply Hsame.
  - apply Hsame.
  - destruct (add_callback_effect env callback w) as (tr & cbs & ->).
    pose proof (Hblind w tr cbs (_state (self w)) Hw) as H.
    by destruct w as [[]].
  - destruct (data_watch w); [|done]. by apply stable_data_handler.
  - destruct (children_watch w); [|done]. by apply stable_child_handler.
Qed.

Lemma reachable_invariant (I : @World value -> Prop) :
  about_object I -> stable decode I -> registry_blind I ->
  (forall w, self w = {| _path := _path (self w);
                         _watch_children := _watch_children (self w);
                         _children := _children (self w);
                         _data := None; _stat := None;
                         _callbacks := _callbacks (self w);
                         _state := _state (self w) |} ->
             heap w = {[ _children (self w) := ∅ ]} -> trace w = [] -> I w) ->
  forall w, reachable decode w -> I w.
Proof.
  intros Habout Hstable Hblind Hinit w Hreach.
  induction Hreach as [env p cb wc | env c w _ IH].
  - unfold __init__. apply _begin_preserves; [done | done |]. by apply Hinit.
  - by apply perform_preserves.
Qed.

Lemma registry_blind_stat_guards_data : registry_blind (@stat_guards_data value).
Proof. by intros w tr cbs b Hw. Qed.

Lemma registry_blind_children_allocated : registry_blind (@children_allocated value).
Proof. by intros w tr cbs b Hw. Qed.

Lemma reachable_children_allocated w :
  reachable decode w -> children_allocated w.
Proof.
  apply reachable_invariant.
  - apply about_object_children_allocated.
  - apply stable_children_allocated.
  - apply registry_blind_children_allocated.
  - intros w0 _ Hheap _. unfold children_allocated.
    rewrite Hheap, lookup_singleton_eq. by eexists.
Qed.

(** No call touches a dict object that exists already. *)
Lemma perform_old_dicts env c w l :
  l ∈ dom (heap w) -> heap (perform decode env c w) !! l = heap w !! l.
Proof.
  intros Hl. destruct c; simpl; try done.
  - by destruct (add_callback_effect env callback w) as (tr & cbs & ->).
  - destruct (data_watch w); [|done].
    destruct (_update_root_data_guarantee env stat0 w)
      as (tr & s' & h' & -> & _ & HG).
    by apply HG.
  - destruct (children_watch w); [|done].
    destruct (_update_child_list_guarantee env names w)
      as (tr & s' & h' & -> & _ & HG).
    by apply HG.
Qed.

Lemma run_old_dicts calls w l :
  l ∈ dom (heap w) -> heap (run decode calls w) !! l = heap w !! l.
Proof.
  revert w. induction calls as [|[env c] calls IH]; intros w Hl; [done|].
  simpl. rewrite IH.
  - by apply perform_old_dicts.
  - apply elem_of_dom. rewrite perform_old_dicts by done. by apply elem_of_dom.
Qed.

(** C3.  Provided [funcs.decode] maps [None] to [None]: in every state the
    watcher can reach, after construction and after any calls and handler
    runs, a missing stat comes with missing data, in the object and in the
    snapshot [get()] returns. *)
Theorem C3_no_data_without_stat w :
  decode None = None ->
  reachable decode w ->
  (_stat (self w) = None -> _data (self w) = None)
  /\ (forall snap, fst (get w) = Ok snap -> stat snap = None -> data snap = None).
Proof.
  intros Hdec Hreach.
  assert (Hinv : stat_guards_data w).
  { revert w Hreach. apply reachable_invariant.
    - apply about_object_stat_guards_data.
    - by apply stable_stat_guards_data.
    - apply registry_blind_stat_guards_data.
    - intros w0 Hself _ _. unfold stat_guards_data. by rewrite Hself. }
  split; [exact Hinv|].
  intros snap [= <-]. exact Hinv.
Qed.

(** The snapshot and the object refer to the same children dict. *)
Lemma get_shares_children w snap :
  fst (get w) = Ok snap -> children snap = _children (self w).
Proof. by intros [= <-]. Qed.

(** C9.  [get()] leaves the world as it is, and what it returned stays as it
    was: after any later calls and handler runs, the holder of the snapshot
    reads the same stat, path and data, and the dict it refers to has the
    same content. *)
Theorem C9_snapshot_kept w snap calls :
  reachable decode w ->
  fst (get w) = Ok snap ->
  snd (get w) = w
  /\ is_Some (heap w !! children snap)
  /\ contents (run decode calls w) snap = contents w snap.
Proof.
  intros Hreach [= <-]. split; [done|].
  pose proof (reachable_children_allocated w Hreach) as Halloc.
  split; [exact Halloc|].
  unfold contents. f_equal. apply run_old_dicts. by apply elem_of_dom.
Qed.

(** C8.  The two handlers write different attributes.  A run of the data
    handler, whatever it is called with and however it ends, leaves
    [_children] and every dict object of the heap as they were.  A run of the
    children handler leaves [_data], [_stat] and [_path] as they were. *)
Theorem C8_handlers_write_disjoint_fields env d st names w :
  (_children (self (snd (_update_root_data decode env d st w))) = _children (self w)
   /\ heap (snd (_update_root_data decode env d st w)) = heap w)
  /\ (_data (self (snd (_update_child_list decode env names w))) = _data (self w)
      /\ _stat (self (snd (_update_child_list decode env names w))) = _stat (self w)
      /\ _path (self (snd (_update_child_list decode env names w))) = _path (self w)).
Proof.
  split.
  - by destruct (_update_root_data_effect env d st w) as (tr & d' & st' & -> & _).
  - destruct (_update_child_list_effect env names w)
      as (tr & m' & s' & -> & [-> | ->] & _); by simpl.
Qed.

(** ** A paused watcher *)

Lemma paused_notification env c w :
  _state (self w) = false -> is_notification c ->
  _state (self (perform decode env c w)) = false
  /\ invocations (trace (perform decode env c w)) = invocations (trace w).
Proof.
  intros Hpaused Hc. destruct c; try done; simpl.
  - destruct (data_watch w); [|done].
    destruct (_update_root_data_effect env None stat0 w)
      as (tr & d' & st' & -> & _ & _ & Hinv).
    simpl. rewrite invocations_app, Hinv by done. by rewrite app_nil_r.
  - destruct (children_watch w); [|done].
    destruct (_update_child_list_effect env names w)
      as (tr & m' & s' & -> & Hs' & _ & Hinv).
    simpl. rewrite invocations_app, Hinv by done. rewrite app_nil_r.
    by destruct Hs' as [-> | ->].
Qed.

Lemma paused_notifications calls w :
  _state (self w) = false ->
  Forall (fun ec => is_notification ec.2) calls ->
  _state (self (run decode calls w)) = false
  /\ invocations (trace (run decode calls w)) = invocations (trace w).
Proof.
  intros Hpaused Hcalls. revert w Hpaused.
  induction Hcalls as [|[env c] calls Hc _ IH]; intros w Hpaused; [done|].
  simpl. destruct (paused_notification env c w Hpaused Hc) as [Hstill Hsame].
  destruct (IH _ Hstill) as [Hfinal Hinv]. split; [done|]. by rewrite Hinv.
Qed.

(** C5.  While the flag is off: a data-change notification returns with the
    cache updated (the decoded fetched data and the notified stat when the
    node is there, nothing when it is missing) and a child-change
    notification returns with the children dict rebuilt, as [get()] shows,
    and neither calls a callback; over any sequence of notifications the flag
    stays off and no callback is called; and [start()] sets the flag and
    calls nothing. *)
Theorem C5_paused_updates_cache_silently w :
  _state (self w) = false ->
  (forall env st raw st',
     zk_get env (_path (self w)) = Ok (raw, st') ->
     exists w',
       _update_root_data decode env None (Some st) w = (Ok tt, w')
       /\ fst (get w') = Ok {| stat := Some st; path := _path (self w);
                              data := decode raw; children := _children (self w) |}
       /\ invocations (trace w') = invocations (trace w))
  /\ (forall env,
        exists w',
          _update_root_data decode env None None w = (Ok tt, w')
          /\ fst (get w') = Ok {| stat := None; path := _path (self w);
                                 data := decode None;
                                 children := _children (self w) |}
          /\ invocations (trace w') = invocations (trace w))
  /\ (forall env names,
        (forall child, child ∈ names ->
           exists raw st,
             zk_get env (_path (self w) +:+ "/" +:+ child) = Ok (raw, st)) ->
        exists w' snap m',
          _update_child_list decode env names w = (Ok tt, w')
          /\ fst (get w') = Ok snap
          /\ heap w' !! children snap = Some m'
          /\ dom m' = list_to_set names
          /\ (forall child raw st, child ∈ names ->
                zk_get env (_path (self w) +:+ "/" +:+ child) = Ok (raw, st) ->
                m' !! child = Some (decode raw))
          /\ invocations (trace w') = invocations (trace w))
  /\ (forall calls,
        Forall (fun ec => is_notification ec.2) calls ->
        _state (self (run decode calls w)) = false
        /\ invocations (trace (run decode calls w)) = invocations (trace w))
  /\ (exists w',
        start w = (Ok tt, w')
        /\ _state (self w') = true
        /\ trace w' = trace w).
Proof.
  intros Hpaused. repeat apply conj.
  - intros env st raw st' Hget.
    destruct (_update_root_data_fetched env None st w raw st' Hget)
      as (o & tr & Heq & _ & Hquiet & _).
    destruct (Hquiet Hpaused) as [Hinv ->].
    eexists. split; [exact Heq|]. split; [done|].
    cbn [trace add_trace with_self].
    rewrite !invocations_app, Hinv. simpl. by rewrite app_nil_r.
  - intros env.
    destruct (_update_root_data_missing env None w) as (o & tr & Heq & _ & Hquiet & _).
    destruct (Hquiet Hpaused) as [Hinv ->].
    eexists. split; [exact Heq|]. split; [done|].
    cbn [trace add_trace with_self].
    rewrite !invocations_app, Hinv. simpl. by rewrite app_nil_r.
  - intros env names Hok.
    destruct (_update_child_list_fetched env names w Hok)
      as (o & tr & Heq & _ & Hquiet & _).
    destruct (Hquiet Hpaused) as [Hinv ->].
    eexists _, _, _. split; [exact Heq|]. split; [done|].
    cbn [self heap trace add_trace with_self with_heap set_children _children
         snapshot children].
    split; [by rewrite lookup_insert_eq|]. split; [|split].
    + by rewrite built_dom, dom_empty_L, (left_id_L ∅ (∪)).
    + intros child raw st Hin Hget.
      rewrite (built_lookup_in
                 (fun c => decode (fetched_data env (_path (self w)) c))) by done.
      unfold fetched_data. by rewrite Hget.
    + rewrite !invocations_app, Hinv.
      rewrite (child_gets_invocations (fun c => _path (self w) +:+ "/" +:+ c)).
      simpl. by rewrite app_nil_r.
  - intros calls Hcalls. by apply paused_notifications.
  - by eexists.
Qed.

(** ** The registry *)

Lemma already_exists_elem_of (cb : nat) (cbs : list nat) :
  already_exists cb cbs = true <-> cb ∈ cbs.
Proof.
  induction cbs as [|c cbs IH]; simpl.
  - split; [done | by intros ?%elem_of_nil].
  - case_decide as Heq.
    + subst c. split; [by left | done].
    + rewrite IH. split; [by right|].
      by intros [?|?]%elem_of_cons.
Qed.

Lemma filter_absent (cb : nat) (cbs : list nat) :
  cb ∉ cbs -> filter (fun c => c = cb) cbs = [].
Proof.
  induction cbs as [|c cbs IH]; [done|].
  intros [Hne Hout]%not_elem_of_cons.
  rewrite filter_cons_False by congruence. by apply IH.
Qed.

Lemma add_callback_registered env cb w :
  cb ∈ _callbacks (self w) ->
  add_callback env cb w =
    (Ok tt, add_trace
              [EvLog WARNING "Callback [%s] already exists. Not triggering again."] w).
Proof.
  intros Hin%already_exists_elem_of.
  unfold add_callback, bind, read, log, emit; simpl. by rewrite Hin.
Qed.

Lemma add_callback_new env cb w :
  cb ∉ _callbacks (self w) ->
  add_callback env cb w =
    (match call env cb (snapshot (self w)) with
     | None => Ok tt
     | Some e => Raise e
     end,
     add_trace [EvCallback line125 cb (snapshot (self w))]
       (with_self (set_callbacks (_callbacks (self w) ++ [cb]) (self w)) w)).
Proof.
  intros Hout. assert (Hex : already_exists cb (_callbacks (self w)) = false).
  { destruct (already_exists cb (_callbacks (self w))) eqn:H; [|done].
    by apply already_exists_elem_of in H. }
  unfold add_callback, bind, read, update, get, invoke, emit; simpl.
  by rewrite Hex.
Qed.

(** C4.  [add_callback] with a callback of the registry logs a warning and
    does nothing else; with a callback that is not in the registry it appends
    it and calls it once, at once, with the current snapshot, and the flag
    plays no part; right after a registration, whatever it did, registering
    the same callback again only logs the warning; so registering a new
    callback twice leaves one entry for it and calls it once in total. *)
Theorem C4_add_callback_idempotent env env' cb w :
  add_callback env cb w =
    (if decide (cb ∈ _callbacks (self w)) then
       (Ok tt, add_trace
                 [EvLog WARNING "Callback [%s] already exists. Not triggering again."] w)
     else
       (match call env cb (snapshot (self w)) with
        | None => Ok tt
        | Some e => Raise e
        end,
        add_trace [EvCallback line125 cb (snapshot (self w))]
          (with_self (set_callbacks (_callbacks (self w) ++ [cb]) (self w)) w)))
  /\ add_callback env' cb (snd (add_callback env cb w)) =
       (Ok tt, add_trace
                 [EvLog WARNING "Callback [%s] already exists. Not triggering again."]
                 (snd (add_callback env cb w)))
  /\ (cb ∉ _callbacks (self w) ->
      let w2 := snd (add_callback env' cb (snd (add_callback env cb w))) in
      _callbacks (self w2) = _callbacks (self w) ++ [cb]
      /\ length (filter (fun c => c = cb) (_callbacks (self w2))) = 1
      /\ invocations (trace w2) =
           invocations (trace w) ++ [(line125, cb, snapshot (self w))]).
Proof.
  assert (Hfirst : cb ∈ _callbacks (self (snd (add_callback env cb w)))).
  { destruct (decide (cb ∈ _callbacks (self w))) as [Hin|Hout].
    - by rewrite add_callback_registered.
    - rewrite add_callback_new by done. simpl. apply elem_of_app. right. by left. }
  split; [|split].
  - case_decide; [by apply add_callback_registered | by apply add_callback_new].
  - by apply add_callback_registered.
  - intros Hout w2. subst w2.
    rewrite (add_callback_registered env' cb _ Hfirst).
    rewrite add_callback_new by done.
    cbn [snd self trace add_trace with_self set_callbacks _callbacks].
    split; [done|]. split.
    + rewrite filter_app, length_app.
      rewrite filter_absent by done. by rewrite filter_cons_True.
    + rewrite !invocations_app. simpl. by rewrite app_nil_r.
Qed.

(** ** Construction, step by step *)

Lemma stable_registration p wc dw cw checks :
  stable decode (registration p wc dw cw checks).
Proof.
  intros w tr s' h' (Hp & Hwc & Hdw & Hcw & Hchecks) Htr (Hp' & Hwc' & _).
  unfold registration; simpl.
  rewrite Hp', Hwc', exists_checks_app, (from_handler_exists_checks tr Htr).
  by rewrite app_nil_r.
Qed.

(** [_begin], phase by phase: the data watch and what it delivers; the
    existence check; the children watch and what it delivers. *)
Lemma _begin_phases env w :
  _begin decode env w =
    match for_each (DataWatch_delivers env)
            (fun st => _update_root_data decode env None st)
            (snd (arm_data_watch
                    (add_trace [EvLog DEBUG "Registering watch on data changes"] w)))
    with
    | (Raise e, w1) => (Raise e, w1)
    | (Ok _, w1) =>
        match zk_exists env (_path (self w1)) with
        | Raise e => (Raise e, add_trace [EvExists (_path (self w1))] w1)
        | Ok found =>
            if truthy found && _watch_children (self w1) then
              for_each (ChildrenWatch_delivers env) (_update_child_list decode env)
                (snd (arm_children_watch
                        (add_trace [EvExists (_path (self w1));
                                    EvLog DEBUG "Registering watch on child changes"]
                           w1)))
            else (Ok tt, add_trace [EvExists (_path (self w1))] w1)
        end
    end.
Proof.
  unfold _begin, DataWatch, ChildrenWatch.
  unfold bind at 1, log at 1, emit at 1. unfold bind at 1. unfold bind at 1.
  unfold arm_data_watch at 1. cbn beta iota zeta.
  cbn [self heap data_watch children_watch trace snd arm_data_watch add_trace].
  destruct (for_each _ _ _) as [[[]|e] w1]; [|done].
  unfold bind, read, exists_, emit, log, arm_children_watch; simpl.
  destruct (zk_exists env (_path (self w1))) as [found|e]; simpl; [|done].
  destruct (truthy found && _watch_children (self w1)); [|done].
  unfold add_trace; simpl. by rewrite <- app_assoc.
Qed.

(** The world [__init__] hands to [_begin]. *)
Lemma __init___unfold env p cb wc :
  exists w0,
    __init__ decode env p cb wc = _begin decode env w0
    /\ registration p wc false false [] w0
    /\ _callbacks (self w0) = match cb with Some c => [c] | None => [] end
    /\ trace w0 = [].
Proof. eexists. split; [reflexivity|]. by repeat split. Qed.

Lemma data_phase env w p wc cw checks :
  registration p wc false cw checks w ->
  registration p wc true cw checks
    (snd (for_each (DataWatch_delivers env)
            (fun st => _update_root_data decode env None st)
            (snd (arm_data_watch
                    (add_trace [EvLog DEBUG "Registering watch on data changes"] w))))).
Proof.
  intros (Hp & Hwc & Hdw & Hcw & Hchecks).
  apply preserves_for_each.
  - intros st. apply stable_data_handler, stable_registration.
  - unfold registration; simpl. rewrite exists_checks_app, Hchecks. simpl.
    by rewrite app_nil_r.
Qed.

Lemma children_phase env w1 p wc dw cw :
  registration p wc dw cw [] w1 ->
  registration p wc dw true [p]
    (snd (for_each (ChildrenWatch_delivers env) (_update_child_list decode env)
            (snd (arm_children_watch
                    (add_trace [EvExists p;
                                EvLog DEBUG "Registering watch on child changes"]
                       w1))))).
Proof.
  intros (Hp & Hwc & Hdw & Hcw & Hchecks).
  apply preserves_for_each.
  - intros names. apply stable_child_handler, stable_registration.
  - unfold registration; simpl. rewrite exists_checks_app, Hchecks. by simpl.
Qed.

(** Where construction ends, case by case. *)
Lemma __init___cases env p cb wc :
  let r := __init__ decode env p cb wc in
  (exists e, fst r = Raise e /\ registration p wc true false [] (snd r))
  \/ (exists e, zk_exists env p = Raise e /\ fst r = Raise e
                /\ registration p wc true false [p] (snd r))
  \/ (exists found, zk_exists env p = Ok found /\ truthy found && wc = false
                    /\ fst r = Ok tt /\ registration p wc true false [p] (snd r))
  \/ (exists found, zk_exists env p = Ok found /\ truthy found && wc = true
                    /\ registration p wc true true [p] (snd r)).
Proof.
  destruct (__init___unfold env p cb wc) as (w0 & -> & Hreg & _).
  cbn zeta. rewrite _begin_phases.
  pose proof (data_phase env w0 p wc false [] Hreg) as Hreg1.
  destruct (for_each (DataWatch_delivers env) _ _) as [[[]|e] w1]; simpl in Hreg1.
  2:{ left. by exists e. }
  right. pose proof Hreg1 as (Hp & Hwc & Hdw & Hcw & Hchecks).
  rewrite Hp, Hwc. destruct (zk_exists env p) as [found|e] eqn:Hexists.
  - right. destruct (truthy found && wc) eqn:Hcond.
    + right. exists found. split; [done|]. split; [done|].
      by apply (children_phase env w1 p wc true false).
    + left. exists found. split; [done|]. split; [done|]. split; [done|].
      unfold registration; simpl. rewrite exists_checks_app, Hchecks. by simpl.
  - left. exists e. split; [done|]. split; [done|].
    unfold registration; simpl. rewrite exists_checks_app, Hchecks. by simpl.
Qed.

Lemma perform_registration env c w p wc dw cw checks :
  registration p wc dw cw checks w ->
  registration p wc dw cw checks (perform decode env c w).
Proof.
  intros Hreg. destruct c; simpl; try done.
  - destruct (decide (callback ∈ _callbacks (self w))) as [Hin|Hout].
    + rewrite add_callback_registered by done.
      destruct Hreg as (? & ? & ? & ? & Hchecks). unfold registration; simpl.
      rewrite exists_checks_app, Hchecks. simpl. by rewrite app_nil_r.
    + rewrite add_callback_new by done.
      destruct Hreg as (? & ? & ? & ? & Hchecks). unfold registration; simpl.
      rewrite exists_checks_app, Hchecks. simpl. by rewrite app_nil_r.
  - destruct (data_watch w); [|done].
    by apply stable_data_handler; [apply stable_registration|].
  - destruct (children_watch w); [|done].
    by apply stable_child_handler; [apply stable_registration|].
Qed.

Lemma run_registration calls w p wc dw cw checks :
  registration p wc dw cw checks w ->
  registration p wc dw cw checks (run decode calls w).
Proof.
  revert w. induction calls as [|[env c] calls IH]; intros w Hreg; [done|].
  simpl. by apply IH, perform_registration.
Qed.

Lemma registration_here w :
  registration (_path (self w)) (_watch_children (self w)) (data_watch w)
    (children_watch w) (exists_checks (trace w)) w.
Proof. by repeat split. Qed.

(** C6.  At the end of [__init__], returned or raised: the data watch is
    registered; the children watch is registered exactly when the existence
    check was made, answered with a stat, and [watch_children] is true; the
    check was made at most once, and once when [__init__] returned.  No call
    and no notification after that registers the children watch or checks
    existence again. *)
Theorem C6_children_watch_decided_once env p cb wc :
  let w := snd (__init__ decode env p cb wc) in
  data_watch w = true
  /\ (children_watch w = true <->
        exists_checks (trace w) = [p]
        /\ (exists st, zk_exists env p = Ok (Some st))
        /\ wc = true)
  /\ (exists_checks (trace w) = [] \/ exists_checks (trace w) = [p])
  /\ (fst (__init__ decode env p cb wc) = Ok tt -> exists_checks (trace w) = [p])
  /\ (forall calls,
        children_watch (run decode calls w) = children_watch w
        /\ exists_checks (trace (run decode calls w)) = exists_checks (trace w)).
Proof.
  intros w. subst w.
  assert (Hlater : forall calls,
            children_watch (run decode calls (snd (__init__ decode env p cb wc)))
            = children_watch (snd (__init__ decode env p cb wc))
            /\ exists_checks (trace (run decode calls (snd (__init__ decode env p cb wc))))
               = exists_checks (trace (snd (__init__ decode env p cb wc)))).
  { intros calls.
    pose proof (run_registration calls _ _ _ _ _ _
                  (registration_here (snd (__init__ decode env p cb wc))))
      as (_ & _ & _ & Hcw & Hchecks).
    by split. }
  split; [|split; [|split; [|split; [|exact Hlater]]]]; clear Hlater;
    destruct (__init___cases env p cb wc)
      as [(e & Hfst & Hreg) | [(e & Hex & Hfst & Hreg)
          | [(found & Hex & Hcond & Hfst & Hreg) | (found & Hex & Hcond & Hreg)]]];
    destruct Hreg as (_ & _ & Hdw & Hcw & Hchecks);
    rewrite ?Hcw, ?Hchecks; try done; try (by left); try (by right).
  - split; [done|]. by intros (? & _).
  - split; [done|]. intros (_ & (st & Hst) & _). congruence.
  - split; [done|]. intros (_ & (st & Hst) & ->).
    rewrite Hex in Hst. injection Hst as ->. by simpl in Hcond.
  - apply andb_true_iff in Hcond as [Hfound ->].
    destruct found as [st|]; [|done].
    split; [|done]. intros _. repeat split. by exists st.
  - by rewrite Hfst.
Qed.

(** C7.  When the existence check made by [__init__] raises, [__init__]
    raises that very exception; the check was made once, with no second
    attempt, and the children watch is not registered. *)
Theorem C7_failed_check_fails_construction env p cb wc e :
  zk_exists env p = Raise e ->
  exists_checks (trace (snd (__init__ decode env p cb wc))) <> [] ->
  fst (__init__ decode env p cb wc) = Raise e
  /\ exists_checks (trace (snd (__init__ decode env p cb wc))) = [p]
  /\ children_watch (snd (__init__ decode env p cb wc)) = false.
Proof.
  intros Hraise Hmade.
  destruct (__init___cases env p cb wc)
    as [(e' & Hfst & Hreg) | [(e' & Hex & Hfst & Hreg)
        | [(found & Hex & _) | (found & Hex & _)]]];
    try congruence.
  - by destruct Hreg as (_ & _ & _ & _ & Hchecks).
  - destruct Hreg as (_ & _ & _ & Hcw & Hchecks).
    rewrite Hfst. split; [congruence | done].
Qed.

(** C10.  [__init__] puts the callback it is given in the registry, and
    nothing else; it never calls it the way [add_callback] does (line 125):
    whatever is called during construction is called by [_execute_callbacks],
    from a handler the client runs while registering it, and when the client
    runs none, nothing is called. *)
Theorem C10_init_callback_not_called_by_init env p cb wc :
  let w := snd (__init__ decode env p cb wc) in
  _callbacks (self w) = match cb with Some c => [c] | None => [] end
  /\ Forall (fun i => i.1.1 = line182) (invocations (trace w))
  /\ (DataWatch_delivers env = [] -> ChildrenWatch_delivers env = [] ->
      invocations (trace w) = []).
Proof.
  intros w. subst w.
  destruct (__init___unfold env p cb wc) as (w0 & Heq & _ & Hcbs & Htrace).
  split; [|split].
  - rewrite Heq. set (cbs := match cb with Some c => [c] | None => [] end) in *.
    apply (_begin_preserves (fun w => _callbacks (self w) = cbs)); [| |exact Hcbs].
    + intros w w' Hself _ _. by rewrite Hself.
    + intros w tr s' h' Hw _ (_ & _ & Hcb & _). simpl. by rewrite Hcb.
  - rewrite Heq. apply (_begin_preserves dispatched_only).
    + apply about_object_dispatched_only.
    + apply stable_dispatched_only.
    + unfold dispatched_only. by rewrite Htrace.
  - intros Hdata Hchildren. rewrite Heq, _begin_phases, Hdata, Hchildren.
    cbn [for_each ret snd arm_data_watch].
    match goal with |- context [zk_exists env ?q] =>
      destruct (zk_exists env q) as [found|e]
    end.
    + match goal with |- context [if ?b then _ else _] => destruct b end;
        simpl; rewrite Htrace; by simpl.
    + simpl. rewrite Htrace. by simpl.
Qed.

(** * More of the watcher's behaviour *)

(** ** Dispatch to the callbacks *)

Local Abbreviation dispatch_body env :=
  (fun callback : nat =>
     bind (log WARNING "Executing callback %s") (fun _ =>
     bind get (fun arg => invoke env line182 callback arg))).

Lemma dispatch_turn_invocations snap (cbs : list nat) :
  invocations (concat (map (dispatch_turn snap) cbs)) =
    map (fun cb => (line182, cb, snap)) cbs.
Proof. induction cbs as [|cb cbs IH]; simpl; [done|]. by f_equal. Qed.

Lemma dispatch_loop_returning env (cbs : list nat) w :
  (forall cb, cb ∈ cbs -> call env cb (snapshot (self w)) = None) ->
  for_each cbs (dispatch_body env) w =
    (Ok tt, add_trace (concat (map (dispatch_turn (snapshot (self w))) cbs)) w).
Proof.
  revert w. induction cbs as [|cb cbs IH]; intros w Hret.
  - simpl. unfold ret. by rewrite add_trace_nil.
  - cbn [for_each]. unfold bind at 1.
    assert (Hturn : dispatch_body env cb w =
              (Ok tt, add_trace (dispatch_turn (snapshot (self w)) cb) w)).
    { unfold invoke, bind, log, emit, get, read; simpl.
      rewrite (Hret cb) by left. unfold add_trace, dispatch_turn; simpl.
      by rewrite <- app_assoc. }
    rewrite Hturn. rewrite IH.
    + simpl. by rewrite add_trace_app.
    + intros c Hc. simpl. apply Hret. by right.
Qed.

Lemma dispatch_loop_raising env (pre post : list nat) cb e w :
  (forall c, c ∈ pre -> call env c (snapshot (self w)) = None) ->
  call env cb (snapshot (self w)) = Some e ->
  for_each (pre ++ cb :: post) (dispatch_body env) w =
    (Raise e,
     add_trace (concat (map (dispatch_turn (snapshot (self w))) (pre ++ [cb]))) w).
Proof.
  revert w. induction pre as [|c pre IH]; intros w Hret Hraise.
  - cbn [app for_each map concat]. unfold bind at 1.
    assert (Hturn : dispatch_body env cb w =
              (Raise e, add_trace (dispatch_turn (snapshot (self w)) cb) w)).
    { unfold invoke, bind, log, emit, get, read; simpl.
      rewrite Hraise. unfold add_trace, dispatch_turn; simpl.
      by rewrite <- app_assoc. }
    rewrite Hturn. by rewrite app_nil_r.
  - cbn [app for_each map concat]. unfold bind at 1.
    assert (Hturn : dispatch_body env c w =
              (Ok tt, add_trace (dispatch_turn (snapshot (self w)) c) w)).
    { unfold invoke, bind, log, emit, get, read; simpl.
      rewrite (Hret c) by left. unfold add_trace, dispatch_turn; simpl.
      by rewrite <- app_assoc. }
    rewrite Hturn. rewrite IH.
    + simpl. by rewrite add_trace_app.
    + intros c' Hc'. simpl. apply Hret. by right.
    + done.
Qed.

Lemma _execute_callbacks_active env w :
  _state (self w) = true ->
  _execute_callbacks env w =
    for_each (_callbacks (self w)) (dispatch_body env)
      (add_trace [EvLog DEBUG "execute_callbacks triggered"] w).
Proof.
  intros Hactive. unfold _execute_callbacks.
  unfold bind at 1, log at 1, emit at 1. unfold bind at 1, state, read at 1.
  cbn [self]. rewrite Hactive. cbn [negb]. by unfold bind at 1, read at 1.
Qed.

Lemma _execute_callbacks_all_return env w :
  _state (self w) = true ->
  (forall cb, cb ∈ _callbacks (self w) -> call env cb (snapshot (self w)) = None) ->
  _execute_callbacks env w =
    (Ok tt,
     add_trace ([EvLog DEBUG "execute_callbacks triggered"]
                ++ concat (map (dispatch_turn (snapshot (self w))) (_callbacks (self w))))
       w).
Proof.
  intros Hactive Hret. rewrite _execute_callbacks_active by done.
  rewrite dispatch_loop_returning by done. by rewrite add_trace_app.
Qed.

(** X1.  An active watcher whose callbacks all return: [_execute_callbacks]
    calls every callback of the registry, in the order of registration, each
    with the current snapshot, returns, and changes neither the object nor
    the heap. *)
Theorem X1_dispatch_in_registration_order env w :
  _state (self w) = true ->
  (forall cb, cb ∈ _callbacks (self w) -> call env cb (snapshot (self w)) = None) ->
  exists w',
    _execute_callbacks env w = (Ok tt, w')
    /\ self w' = self w
    /\ heap w' = heap w
    /\ invocations (trace w') =
         invocations (trace w)
         ++ map (fun cb => (line182, cb, snapshot (self w))) (_callbacks (self w)).
Proof.
  intros Hactive Hret. rewrite _execute_callbacks_all_return by done.
  eexists. split; [done|]. split; [done|]. split; [done|].
  cbn [trace add_trace self]. by rewrite !invocations_app, dispatch_turn_invocations.
Qed.

(** X2.  An active watcher with a callback that raises: the callbacks
    registered before it are called, it is called, the callbacks registered
    after it are not, and [_execute_callbacks] raises what the callback
    raised. *)
Theorem X2_raising_callback_stops_dispatch env w pre cb post e :
  _state (self w) = true ->
  _callbacks (self w) = pre ++ cb :: post ->
  (forall c, c ∈ pre -> call env c (snapshot (self w)) = None) ->
  call env cb (snapshot (self w)) = Some e ->
  exists w',
    _execute_callbacks env w = (Raise e, w')
    /\ self w' = self w
    /\ heap w' = heap w
    /\ invocations (trace w') =
         invocations (trace w)
         ++ map (fun c => (line182, c, snapshot (self w))) (pre ++ [cb]).
Proof.
  intros Hactive Hcbs Hret Hraise. rewrite _execute_callbacks_active by done.
  rewrite Hcbs. rewrite (dispatch_loop_raising env pre post cb e) by done.
  eexists. split; [done|]. split; [done|]. split; [done|].
  cbn [trace add_trace self]. rewrite !invocations_app, dispatch_turn_invocations.
  simpl. by rewrite app_nil_r.
Qed.

(** ** The handlers commit, then dispatch *)

Lemma _update_root_data_fetched_then_dispatch env d st w raw st' :
  zk_get env (_path (self w)) = Ok (raw, st') ->
  _update_root_data decode env d (Some st) w =
    _execute_callbacks env
      (add_trace [EvLog DEBUG "Data change detected"; EvLog DEBUG "Node is registered.";
                  EvGet (_path (self w)); EvLog DEBUG "Data: %s, Stat: %s"]
         (with_self (set_stat (Some st) (set_data (decode raw) (self w))) w)).
Proof.
  intros Hget.
  unfold _update_root_data, bind, log, emit, update, ret, retry_get, read; simpl.
  rewrite Hget; simpl. f_equal.
  unfold add_trace, with_self; simpl. by rewrite <- !app_assoc.
Qed.

Lemma _update_child_list_fetched_then_dispatch env names w :
  (forall child, child ∈ names ->
     exists raw st, zk_get env (_path (self w) +:+ "/" +:+ child) = Ok (raw, st)) ->
  _update_child_list decode env names w =
    _execute_callbacks env
      (add_trace ([EvLog DEBUG "New children: %s"]
                  ++ map (fun child => EvGet (_path (self w) +:+ "/" +:+ child)) names)
         (with_self (set_children (fresh (dom (heap w))) (self w))
           (with_heap
             (<[fresh (dom (heap w)) :=
                  foldl (fun acc child =>
                    <[child := decode (fetched_data env (_path (self w)) child)]> acc)
                    ∅ names]> (heap w)) w))).
Proof.
  intros Hok. unfold _update_child_list.
  unfold bind at 1, log at 1, emit at 1. unfold bind at 1, new_dict at 1.
  cbn beta iota zeta. cbn [self heap data_watch children_watch trace].
  set (l := fresh (dom (heap w))). set (w1 := Build_World _ (<[l := ∅]> _) _ _ _).
  unfold bind at 1.
  rewrite (fetch_loop_ok env l names w1 ∅);
    [| by subst w1; simpl; rewrite lookup_insert_eq | by subst w1 ].
  unfold bind at 1, update at 1. cbn beta iota zeta.
  f_equal. subst w1. unfold add_trace, with_self, with_heap; simpl.
  by rewrite insert_insert_eq, <- !app_assoc.
Qed.

(** X5.  A data-change notification on an active watcher, the node present
    and fetched, the callbacks returning: every callback of the registry is
    called, in the order of registration, with the snapshot that already
    holds the new data and the notified stat, the one [get()] returns
    afterwards. *)
Theorem X5_data_change_dispatches_new_snapshot env d st w raw st' :
  _state (self w) = true ->
  zk_get env (_path (self w)) = Ok (raw, st') ->
  callbacks_return env ->
  exists w',
    _update_root_data decode env d (Some st) w = (Ok tt, w')
    /\ fst (get w') = Ok {| stat := Some st; path := _path (self w);
                           data := decode raw; children := _children (self w) |}
    /\ invocations (trace w') =
         invocations (trace w)
         ++ map (fun cb => (line182, cb,
                            {| stat := Some st; path := _path (self w);
                               data := decode raw;
                               children := _children (self w) |}))
              (_callbacks (self w)).
Proof.
  intros Hactive Hget Hret.
  rewrite (_update_root_data_fetched_then_dispatch env d st w raw st' Hget).
  rewrite _execute_callbacks_all_return; [|done | by intros cb _].
  eexists. split; [done|]. split; [done|].
  cbn [trace add_trace with_self self set_stat set_data _callbacks snapshot
       _stat _path _data _children].
  rewrite !invocations_app, dispatch_turn_invocations. simpl.
  by rewrite app_nil_r.
Qed.

(** X6.  A child-change notification on an active watcher, every child
    fetched, the callbacks returning: every callback of the registry is
    called, in the order of registration, with the snapshot [get()] returns
    afterwards, whose children dict is the new one. *)
Theorem X6_child_change_dispatches_new_snapshot env names w :
  _state (self w) = true ->
  (forall child, child ∈ names ->
     exists raw st, zk_get env (_path (self w) +:+ "/" +:+ child) = Ok (raw, st)) ->
  callbacks_return env ->
  exists w' snap,
    _update_child_list decode env names w = (Ok tt, w')
    /\ fst (get w') = Ok snap
    /\ (children snap ∉ dom (heap w))
    /\ stat snap = _stat (self w) /\ data snap = _data (self w)
    /\ invocations (trace w') =
         invocations (trace w)
         ++ map (fun cb => (line182, cb, snap)) (_callbacks (self w)).
Proof.
  intros Hactive Hok Hret.
  rewrite (_update_child_list_fetched_then_dispatch env names w Hok).
  rewrite _execute_callbacks_all_return; [|done | by intros cb _].
  eexists _, _. split; [done|]. split; [done|].
  cbn [trace add_trace with_self with_heap self set_children _callbacks snapshot
       _stat _path _data _children children stat data].
  split; [apply is_fresh|]. split; [done|]. split; [done|].
  rewrite !invocations_app, dispatch_turn_invocations.
  rewrite (child_gets_invocations (fun c => _path (self w) +:+ "/" +:+ c)).
  simpl. by rewrite app_nil_r.
Qed.

(** ** When a fetch fails *)

(** X3.  A data-change notification for a present node whose fetch raises
    (the node is gone again, or the client gave up): the handler raises the
    same exception after that one fetch, the object and the heap are as they
    were, so the cache is stale, and no callback is called. *)
Theorem X3_data_fetch_failure_keeps_cache env d st w e :
  zk_get env (_path (self w)) = Raise e ->
  exists w',
    _update_root_data decode env d (Some st) w = (Raise e, w')
    /\ self w' = self w
    /\ heap w' = heap w
    /\ fst (get w') = fst (get w)
    /\ invocations (trace w') = invocations (trace w)
    /\ fetches (trace w') = fetches (trace w) ++ [_path (self w)].
Proof.
  intros Hget. rewrite (_update_root_data_failed env d st w e Hget).
  eexists. split; [done|]. split; [done|]. split; [done|]. split; [done|].
  cbn [trace add_trace]. rewrite invocations_app, fetches_app. simpl.
  by rewrite app_nil_r.
Qed.

Lemma fetch_loop_failing env l pre c post w m e :
  heap w !! l = Some m ->
  (forall child, child ∈ pre ->
     exists raw st, zk_get env (_path (self w) +:+ "/" +:+ child) = Ok (raw, st)) ->
  zk_get env (_path (self w) +:+ "/" +:+ c) = Raise e ->
  for_each (pre ++ c :: post) (fetch_child env l) w =
    (Raise e,
     add_trace (map (fun child => EvGet (_path (self w) +:+ "/" +:+ child)) (pre ++ [c]))
       (with_heap
          (<[l := foldl (fun acc child =>
                    <[child := decode (fetched_data env (_path (self w)) child)]> acc)
                  m pre]> (heap w)) w)).
Proof.
  revert w m. induction pre as [|child pre IH]; intros w m Hl Hok Hfail.
  - cbn [app for_each foldl map].
    erewrite bind_raise; [|by apply fetch_child_failed].
    f_equal. destruct w; unfold add_trace, with_heap; simpl. by rewrite insert_id.
  - cbn [app for_each foldl map].
    destruct (Hok child) as (raw & st & Hget); [by left|].
    erewrite bind_ok; [|by apply (fetch_child_ok env l child w m raw st)].
    set (w1 := add_trace _ _).
    rewrite (IH w1 (<[child := decode raw]> m)).
    + subst w1. unfold add_trace, with_heap, fetched_data; simpl.
      rewrite Hget. by rewrite insert_insert_eq, <- app_assoc.
    + subst w1; simpl. by rewrite lookup_insert_eq.
    + intros c' Hc'. subst w1; simpl. apply Hok. by right.
    + by subst w1.
Qed.

(** X4.  A child-change notification in which the fetch of one child raises
    (the child went away after it was listed): the handler raises the same
    exception; the children before it were fetched, the children after it
    were not; [_children] and every dict that existed are as they were, so
    [get()] still shows the previous children; and no callback is called. *)
Theorem X4_child_fetch_failure_keeps_children env pre c post w e :
  (forall child, child ∈ pre ->
     exists raw st, zk_get env (_path (self w) +:+ "/" +:+ child) = Ok (raw, st)) ->
  zk_get env (_path (self w) +:+ "/" +:+ c) = Raise e ->
  exists w',
    _update_child_list decode env (pre ++ c :: post) w = (Raise e, w')
    /\ self w' = self w
    /\ (forall l, l ∈ dom (heap w) -> heap w' !! l = heap w !! l)
    /\ invocations (trace w') = invocations (trace w)
    /\ fetches (trace w') =
         fetches (trace w)
         ++ map (fun child => _path (self w) +:+ "/" +:+ child) (pre ++ [c]).
Proof.
  intros Hok Hfail. unfold _update_child_list.
  unfold bind at 1, log at 1, emit at 1. unfold bind at 1, new_dict at 1.
  cbn beta iota zeta. cbn [self heap data_watch children_watch trace].
  set (l := fresh (dom (heap w))). set (w1 := Build_World _ (<[l := ∅]> _) _ _ _).
  unfold bind at 1.
  rewrite (fetch_loop_failing env l pre c post w1 ∅ e);
    [| by subst w1; simpl; rewrite lookup_insert_eq
     | subst w1; simpl; exact Hok | subst w1; simpl; exact Hfail ].
  eexists. split; [done|]. subst w1.
  cbn [self heap trace add_trace with_heap].
  split; [done|]. split; [|split].
  - intros l' Hl'. rewrite insert_insert_eq, lookup_insert_ne; [done|].
    intros <-. by apply (is_fresh (dom (heap w))).
  - rewrite !invocations_app.
    rewrite (child_gets_invocations (fun child => _path (self w) +:+ "/" +:+ child)).
    simpl. by rewrite !app_nil_r.
  - rewrite !fetches_app.
    rewrite (fetches_gets (fun child => _path (self w) +:+ "/" +:+ child)).
    simpl. by rewrite app_nil_r.
Qed.

(** X11.  However it ends, [_update_root_data] fetches the watched path once
    when the notification carries a stat, and nothing when it does not; it
    fetches no other path. *)
Theorem X11_data_change_fetches_own_path_at_most_once env d st w :
  fetches (trace (snd (_update_root_data decode env d st w))) =
    fetches (trace w) ++ (if truthy st then [_path (self w)] else []).
Proof.
  destruct st as [st|].
  - destruct (zk_get env (_path (self w))) as [[raw st']|e] eqn:Hget.
    + destruct (_update_root_data_fetched env d st w raw st' Hget)
        as (o & tr & -> & Htr & _).
      cbn [snd trace add_trace with_self truthy].
      rewrite !fetches_app, (from_dispatch_fetches tr Htr). by simpl.
    + rewrite (_update_root_data_failed env d st w e Hget).
      cbn [snd trace add_trace truthy]. by rewrite fetches_app.
  - destruct (_update_root_data_missing env d w) as (o & tr & -> & Htr & _).
    cbn [snd trace add_trace with_self truthy].
    rewrite !fetches_app, (from_dispatch_fetches tr Htr). by simpl.
Qed.

(** ** The registry over the life of a watcher *)

Lemma perform_callbacks env c w :
  _callbacks (self (perform decode env c w)) = _callbacks (self w)
  \/ (exists cb, (cb ∉ _callbacks (self w))
                 /\ _callbacks (self (perform decode env c w)) = _callbacks (self w) ++ [cb]).
Proof.
  destruct c; simpl; try by left.
  - destruct (decide (callback ∈ _callbacks (self w))) as [Hin|Hout].
    + left. by rewrite add_callback_registered.
    + right. exists callback. split; [done|]. by rewrite add_callback_new.
  - left. destruct (data_watch w); [|done].
    by destruct (_update_root_data_guarantee env stat0 w)
      as (tr & s' & h' & -> & _ & _ & _ & Hcb & _).
  - left. destruct (children_watch w); [|done].
    by destruct (_update_child_list_guarantee env names w)
      as (tr & s' & h' & -> & _ & _ & _ & Hcb & _).
Qed.

(** X7.  In every state a watcher can reach, the registry holds no callback
    twice. *)
Theorem X7_registry_without_duplicates w :
  reachable decode w -> NoDup (_callbacks (self w)).
Proof.
  induction 1 as [env p cb wc | env c w _ IH].
  - unfold __init__.
    apply (_begin_preserves (fun w => NoDup (_callbacks (self w)))).
    + intros w w' Hself _ _. by rewrite Hself.
    + intros w tr s' h' Hw _ (_ & _ & Hcb & _). simpl. by rewrite Hcb.
    + simpl. destruct cb; [apply NoDup_singleton | apply NoDup_nil_2].
  - destruct (perform_callbacks env c w) as [-> | (cb & Hout & ->)]; [done|].
    apply NoDup_app. split; [done|]. split; [|apply NoDup_singleton].
    intros c' Hc' ->%list_elem_of_singleton. done.
Qed.

(** X8.  Nothing ever leaves the registry, and nothing is inserted before
    what it holds: after any calls and notifications, the registry starts
    with the registry of before. *)
Theorem X8_registry_only_grows calls w :
  _callbacks (self w) `prefix_of` _callbacks (self (run decode calls w)).
Proof.
  revert w. induction calls as [|[env c] calls IH]; intros w; [done|].
  simpl. etrans; [|apply IH].
  destruct (perform_callbacks env c w) as [-> | (cb & _ & ->)]; [done|].
  by apply prefix_app_r.
Qed.

(** X9.  The path given to the constructor is the path of the watcher for
    good: after any calls and notifications, [get()] returns it. *)
Theorem X9_path_is_fixed env p cb wc calls :
  _path (self (run decode calls (snd (__init__ decode env p cb wc)))) = p
  /\ (forall snap,
        fst (get (run decode calls (snd (__init__ decode env p cb wc)))) = Ok snap ->
        path snap = p).
Proof.
  assert (Hp : _path (self (snd (__init__ decode env p cb wc))) = p).
  { destruct (__init___cases env p cb wc)
      as [(e & _ & Hreg) | [(e & _ & _ & Hreg)
          | [(found & _ & _ & _ & Hreg) | (found & _ & _ & Hreg)]]];
      by destruct Hreg. }
  pose proof (run_registration calls _ _ _ _ _ _
                (registration_here (snd (__init__ decode env p cb wc))))
    as (Hpath & _).
  rewrite Hp in Hpath. split; [done|]. by intros snap [= <-].
Qed.

(** X10.  The public methods never go to Zookeeper and never touch the
    cache: [get], [stop], [start], [state] and [add_callback] fetch nothing,
    check no existence, and leave the data, the stat, the children reference
    and the heap as they were. *)
Theorem X10_methods_stay_local env c w :
  ~ is_notification c ->
  fetches (trace (perform decode env c w)) = fetches (trace w)
  /\ exists_checks (trace (perform decode env c w)) = exists_checks (trace w)
  /\ heap (perform decode env c w) = heap w
  /\ _data (self (perform decode env c w)) = _data (self w)
  /\ _stat (self (perform decode env c w)) = _stat (self w)
  /\ _children (self (perform decode env c w)) = _children (self w).
Proof.
  intros Hc. destruct c; simpl in *; try done.
  destruct (decide (callback ∈ _callbacks (self w))) as [Hin|Hout].
  - rewrite add_callback_registered by done. cbn [snd trace add_trace self heap].
    rewrite fetches_app, exists_checks_app. simpl. by rewrite !app_nil_r.
  - rewrite add_callback_new by done. cbn [snd trace add_trace with_self self heap].
    rewrite fetches_app, exists_checks_app. simpl. by rewrite !app_nil_r.
Qed.

(** ** The flag *)

Lemma set_state_set_state b b' s : set_state b (set_state b' s) = set_state b s.
Proof. done. Qed.

Lemma perform_flag_call env c w :
  is_flag_call c ->
  perform decode env c w = with_self (set_state (flag_of c) (self w)) w.
Proof. by destruct c. Qed.

(** X13.  The flag is the last word, not a count: after any number of
    [start()] and [stop()] calls, the world is what the last of them alone
    would have made it; two [stop()] need one [start()]. *)
Theorem X13_flag_is_last_call calls env c w :
  Forall (fun ec => is_flag_call ec.2) calls ->
  is_flag_call c ->
  run decode (calls ++ [(env, c)]) w = with_self (set_state (flag_of c) (self w)) w.
Proof.
  intros Hcalls Hc. revert w.
  induction Hcalls as [|[env' c'] calls Hc' _ IH]; intros w.
  - simpl. by apply perform_flag_call.
  - cbn [app run]. rewrite IH. by rewrite (perform_flag_call env' c' w Hc').
Qed.

(** ** A watcher without a children watch *)

Lemma __init___starts_empty env p cb wc :
  exists w0,
    __init__ decode env p cb wc = _begin decode env w0
    /\ registration p wc false false [] w0
    /\ children_empty w0.
Proof.
  eexists. split; [reflexivity|]. split; [by repeat split|].
  unfold children_empty; simpl. by rewrite lookup_singleton_eq.
Qed.

Lemma data_handler_children_empty env st :
  preserves children_empty (_update_root_data decode env None st).
Proof.
  intros w Hw.
  by destruct (_update_root_data_effect env None st w) as (tr & d' & st' & -> & _).
Qed.

Lemma __init___without_children_watch env p cb wc :
  children_watch (snd (__init__ decode env p cb wc)) = false ->
  children_empty (snd (__init__ decode env p cb wc)).
Proof.
  destruct (__init___starts_empty env p cb wc) as (w0 & -> & Hreg & Hempty).
  rewrite _begin_phases.
  pose proof (data_phase env w0 p wc false [] Hreg) as Hreg1.
  assert (Hempty1 : children_empty
            (snd (for_each (DataWatch_delivers env)
                    (fun st => _update_root_data decode env None st)
                    (snd (arm_data_watch
                            (add_trace [EvLog DEBUG "Registering watch on data changes"]
                               w0)))))).
  { apply preserves_for_each; [apply data_handler_children_empty | exact Hempty]. }
  destruct (for_each (DataWatch_delivers env) _ _) as [[[]|e] w1];
    simpl in Hreg1, Hempty1; [|done].
  pose proof Hreg1 as (Hp & Hwc & _).
  rewrite Hp, Hwc. destruct (zk_exists env p) as [found|e]; [|done].
  destruct (truthy found && wc); [|done].
  intros Hcw.
  pose proof (children_phase env w1 p wc true false Hreg1) as (_ & _ & _ & Hcw' & _).
  congruence.
Qed.

Lemma perform_without_children_watch env c w :
  children_watch w = false -> children_empty w ->
  children_watch (perform decode env c w) = false
  /\ children_empty (perform decode env c w).
Proof.
  intros Hcw Hempty. destruct c; simpl; try done.
  - destruct (add_callback_effect env callback w) as (tr & cbs & ->). by split.
  - destruct (data_watch w); [|done].
    by destruct (_update_root_data_effect env None stat0 w)
      as (tr & d' & st' & -> & _).
  - by rewrite Hcw.
Qed.

Lemma run_without_children_watch calls w :
  children_watch w = false -> children_empty w ->
  children_watch (run decode calls w) = false
  /\ children_empty (run decode calls w).
Proof.
  revert w. induction calls as [|[env c] calls IH]; intros w Hcw Hempty; [done|].
  simpl. destruct (perform_without_children_watch env c w Hcw Hempty).
  by apply IH.
Qed.

(** X12.  A watcher built with [watch_children] false, or on a node that
    does not exist when it is built, never watches the children: after any
    calls and notifications, also when the node has come to exist, the
    children dict of [get()] is empty. *)
Theorem X12_no_children_without_children_watch env p cb wc calls :
  wc = false \/ zk_exists env p = Ok None ->
  children_watch (run decode calls (snd (__init__ decode env p cb wc))) = false
  /\ (forall snap,
        fst (get (run decode calls (snd (__init__ decode env p cb wc)))) = Ok snap ->
        heap (run decode calls (snd (__init__ decode env p cb wc))) !! children snap
        = Some ∅).
Proof.
  intros Hno.
  assert (Hcw : children_watch (snd (__init__ decode env p cb wc)) = false).
  { destruct (__init___cases env p cb wc)
      as [(e & _ & Hreg) | [(e & _ & _ & Hreg)
          | [(found & _ & _ & _ & Hreg) | (found & Hex & Hcond & Hreg)]]];
      try by destruct Hreg as (_ & _ & _ & ? & _).
    destruct Hno as [-> | Hnone].
    - by rewrite andb_false_r in Hcond.
    - rewrite Hnone in Hex. injection Hex as <-. done. }
  destruct (run_without_children_watch calls _ Hcw
              (__init___without_children_watch env p cb wc Hcw)) as [Hcw' Hempty].
  split; [done|]. by intros snap [= <-].
Qed.

(** ** Construction with a client that delivers the current state *)

(** X14.  With a client that runs each handler once while registering it (as
    Kazoo does), a node that exists and can be read with its children, and a
    callback that returns: [__init__] returns with the cache filled (the
    decoded data, the notified stat, one entry per child), after one fetch of
    the node followed by one fetch per child, and it has called the callback
    given to the constructor twice, once from each handler. *)
Theorem X14_construction_fills_cache env p cb st raw st' st0 names :
  DataWatch_delivers env = [Some st] ->
  ChildrenWatch_delivers env = [names] ->
  zk_get env p = Ok (raw, st') ->
  zk_exists env p = Ok (Some st0) ->
  (forall child, child ∈ names ->
     exists rc stc, zk_get env (p +:+ "/" +:+ child) = Ok (rc, stc)) ->
  callbacks_return env ->
  exists w snap m,
    __init__ decode env p (Some cb) true = (Ok tt, w)
    /\ fst (get w) = Ok snap
    /\ stat snap = Some st /\ data snap = decode raw /\ path snap = p
    /\ heap w !! children snap = Some m
    /\ dom m = list_to_set names
    /\ (forall child rc stc, child ∈ names ->
          zk_get env (p +:+ "/" +:+ child) = Ok (rc, stc) ->
          m !! child = Some (decode rc))
    /\ fetches (trace w) = p :: map (fun child => p +:+ "/" +:+ child) names
    /\ map (fun i => (i.1.1, i.1.2)) (invocations (trace w))
       = [(line182, cb); (line182, cb)].
Proof.
  intros Hdata Hchildren Hget Hexists Hok Hret.
  unfold __init__. rewrite _begin_phases, Hdata, Hchildren.
  cbn [for_each]. unfold bind at 1.
  rewrite (_update_root_data_fetched_then_dispatch env None st _ raw st') by exact Hget.
  rewrite _execute_callbacks_all_return; [|done | by intros c _].
  unfold ret at 1.
  cbn [snd self add_trace with_self arm_data_watch set_stat set_data _path
       _watch_children].
  rewrite Hexists. cbn [truthy andb]. unfold bind at 1.
  match goal with |- context [_update_child_list decode env names ?w] =>
    set (w2 := w)
  end.
  assert (Hok2 : forall child, child ∈ names ->
            exists rc stc,
              zk_get env (_path (self w2) +:+ "/" +:+ child) = Ok (rc, stc))
    by exact Hok.
  rewrite (_update_child_list_fetched_then_dispatch env names w2 Hok2).
  rewrite _execute_callbacks_all_return; [|done | by intros c _].
  unfold ret.
  eexists _, _, _. split; [reflexivity|]. split; [reflexivity|].
  cbn [snd self heap trace add_trace with_self with_heap set_children snapshot
       stat data path children _stat _data _path _children _callbacks].
  split; [done|]. split; [done|]. split; [done|].
  split; [by rewrite lookup_insert_eq|].
  split; [by rewrite built_dom, dom_empty_L, (left_id_L ∅ (∪))|].
  split.
  { intros child rc stc Hin Hchild.
    rewrite (built_lookup_in
               (fun c => decode (fetched_data env (_path (self w2)) c))) by done.
    unfold fetched_data. subst w2. cbn [self _path with_self add_trace snd
      arm_children_watch set_stat set_data]. by rewrite Hchild. }
  subst w2.
  cbn [snd self heap trace add_trace with_self arm_children_watch set_stat set_data
       _path _callbacks].
  split.
  - rewrite !fetches_app, (fetches_gets (fun child => p +:+ "/" +:+ child)).
    simpl. by rewrite app_nil_r.
  - rewrite !invocations_app.
    rewrite (child_gets_invocations (fun child => p +:+ "/" +:+ child)).
    by simpl.
Qed.

End Properties.

(** * The properties on the sample service *)

(** C1.  The data watch fires with the stat of version 5 while the node has
    been written again: the handler fetches the data and the stat of version
    6, caches the decoded data of version 6, and keeps the stat of version 5
    of the notification, not the stat the fetch returned. *)
Theorem C1_cached_stat_is_not_the_fetched_one :
  zk_get foo_service_later "/services/foo" = Ok (Some "env=staging", stat_version 6)
  /\ _data (self (snd (_update_root_data sample_decode foo_service_later None
                         (Some (stat_version 5)) foo_watcher)))
     = sample_decode (Some "env=staging")
  /\ _stat (self (snd (_update_root_data sample_decode foo_service_later None
                         (Some (stat_version 5)) foo_watcher)))
     = Some (stat_version 5)
  /\ _stat (self (snd (_update_root_data sample_decode foo_service_later None
                         (Some (stat_version 5)) foo_watcher)))
     <> Some (stat_version 6).
Proof.
  split; [reflexivity|]. split; [by vm_compute|]. split; [by vm_compute|].
  vm_compute. discriminate.
Qed.

Lemma foo_watcher_path : _path (self foo_watcher) = "/services/foo".
Proof. by vm_compute. Qed.

(** The scenario of the children [node1:22] and [node3:80]: two fetches, two
    entries, and [node2:22] is gone from the dict. *)
Lemma C2_children_rebuilt_witness :
  NoDup ["node1:22"; "node3:80"]
  /\ (forall child, child ∈ ["node1:22"; "node3:80"] ->
        exists raw st,
          zk_get foo_service_later (_path (self foo_watcher) +:+ "/" +:+ child)
          = Ok (raw, st))
  /\ exists w' tr m',
       _update_child_list sample_decode foo_service_later
         ["node1:22"; "node3:80"] foo_watcher = (Ok tt, w')
       /\ heap w' !! _children (self w') = Some m'
       /\ dom m' = {[ "node1:22"; "node3:80" ]}
       /\ m' !! "node1:22" = Some (Some "w=1")
       /\ m' !! "node3:80" = Some (Some "w=3")
       /\ m' !! "node2:22" = None
       /\ trace w' = trace foo_watcher ++ tr
       /\ fetches tr = ["/services/foo/node1:22"; "/services/foo/node3:80"].
Proof.
  assert (Hnd : NoDup ["node1:22"; "node3:80"]).
  { apply (bool_decide_unpack _). vm_compute. exact I. }
  assert (Hok : forall child, child ∈ ["node1:22"; "node3:80"] ->
            exists raw st,
              zk_get foo_service_later (_path (self foo_watcher) +:+ "/" +:+ child)
              = Ok (raw, st)).
  { intros child Hin. apply elem_of_cons in Hin as [->|Hin].
    - eexists _, _. vm_compute. reflexivity.
    - apply list_elem_of_singleton in Hin as ->.
      eexists _, _. vm_compute. reflexivity. }
  split; [exact Hnd|]. split; [exact Hok|].
  pose proof (C2_children_rebuilt sample_decode foo_service_later
                ["node1:22"; "node3:80"] foo_watcher Hnd Hok) as HC2.
  destruct HC2
    as (o & w' & tr & m' & Heq & Hret & _ & Hm' & Hdom & Hin & Hout & Htr & Hf & _).
  assert (Hcalls : callbacks_return foo_service_later) by (intros ? ?; reflexivity).
  pose proof (Hret Hcalls) as Ho. subst o.
  rewrite foo_watcher_path in Hin, Hf.
  exists w', tr, m'. split; [exact Heq|]. split; [exact Hm'|].
  split.
  { rewrite Hdom. clear. set_solver. }
  split.
  { apply (Hin "node1:22" (Some "w=1") (stat_version 0)); [|by vm_compute].
    apply (bool_decide_unpack _). by vm_compute. }
  split.
  { apply (Hin "node3:80" (Some "w=3") (stat_version 0)); [|by vm_compute].
    apply (bool_decide_unpack _). by vm_compute. }
  split.
  { apply Hout. apply (bool_decide_unpack _). by vm_compute. }
  split; [exact Htr | exact Hf].
Defined.

(** After the node was reported missing, the watcher holds neither stat nor
    data. *)
Lemma C3_no_data_without_stat_witness :
  sample_decode None = None
  /\ reachable sample_decode foo_watcher_missing
  /\ _stat (self foo_watcher_missing) = None
  /\ _data (self foo_watcher_missing) = None.
Proof.
  assert (Hdec : sample_decode None = None) by reflexivity.
  assert (Hreach : reachable sample_decode foo_watcher_missing).
  { apply reachable_perform, reachable_init. }
  assert (Hstat : _stat (self foo_watcher_missing) = None) by (vm_compute; reflexivity).
  split; [exact Hdec|]. split; [exact Hreach|]. split; [exact Hstat|].
  exact (proj1 (C3_no_data_without_stat sample_decode foo_watcher_missing
                  Hdec Hreach) Hstat).
Defined.

(** A second callable, registered twice on the stopped watcher: one more
    entry, one call. *)
Lemma C4_add_callback_idempotent_witness :
(9 ∉ _callbacks (self foo_watcher_stopped))
  /\ _callbacks (self (snd (add_callback foo_service_later 9
                              (snd (add_callback foo_service 9 foo_watcher_stopped)))))
     = [7; 9]
  /\ invocations (trace (snd (add_callback foo_service_later 9
                                (snd (add_callback foo_service 9 foo_watcher_stopped)))))
     = invocations (trace foo_watcher_stopped)
       ++ [(line125, 9, snapshot (self foo_watcher_stopped))].
Proof.
  assert (Hout : 9 ∉ _callbacks (self foo_watcher_stopped)).
  { apply (bool_decide_unpack _). vm_compute. exact I. }
  split; [exact Hout|].
  destruct (C4_add_callback_idempotent foo_service foo_service_later 9
              foo_watcher_stopped) as (_ & _ & Htwice).
  destruct (Htwice Hout) as (Hcbs & _ & Hinv).
  split; [exact Hcbs | exact Hinv].
Defined.

(** The stopped watcher takes a data change in, and calls nobody. *)
Lemma C5_paused_updates_cache_silently_witness :
  _state (self foo_watcher_stopped) = false
  /\ exists w',
       _update_root_data sample_decode foo_service_later None
         (Some (stat_version 6)) foo_watcher_stopped = (Ok tt, w')
       /\ fst (get w') = Ok {| stat := Some (stat_version 6);
                              path := "/services/foo";
                              data := Some "env=staging";
                              children := _children (self foo_watcher_stopped) |}
       /\ invocations (trace w') = invocations (trace foo_watcher_stopped).
Proof.
  assert (Hpaused : _state (self foo_watcher_stopped) = false) by reflexivity.
  split; [exact Hpaused|].
  destruct (C5_paused_updates_cache_silently sample_decode foo_watcher_stopped Hpaused)
    as (Hdata & _).
  exact (Hdata foo_service_later (stat_version 6) (Some "env=staging")
           (stat_version 6) eq_refl).
Defined.

(** Zookeeper cannot be reached: the constructor raises [ConnectionLoss]. *)
Lemma C7_failed_check_fails_construction_witness :
  zk_exists foo_unreachable "/services/foo" = Raise ConnectionLoss
  /\ exists_checks (trace (snd (__init__ sample_decode foo_unreachable
                                  "/services/foo" (Some 7) true))) <> []
  /\ fst (__init__ sample_decode foo_unreachable "/services/foo" (Some 7) true)
     = Raise ConnectionLoss
  /\ exists_checks (trace (snd (__init__ sample_decode foo_unreachable
                                  "/services/foo" (Some 7) true)))
     = ["/services/foo"].
Proof.
  assert (Hraise : zk_exists foo_unreachable "/services/foo" = Raise ConnectionLoss)
    by reflexivity.
  assert (Hmade : exists_checks (trace (snd (__init__ sample_decode foo_unreachable
                                               "/services/foo" (Some 7) true))) <> []).
  { vm_compute. discriminate. }
  split; [exact Hraise|]. split; [exact Hmade|].
  destruct (C7_failed_check_fails_construction sample_decode foo_unreachable
              "/services/foo" (Some 7) true ConnectionLoss Hraise Hmade)
    as (Hfst & Hchecks & _).
  split; [exact Hfst | exact Hchecks].
Defined.

(** A snapshot taken before the children change and the node vanishes still
    reads the two children of before. *)
Lemma C9_snapshot_kept_witness :
  reachable sample_decode foo_watcher
  /\ fst (get foo_watcher) = Ok (snapshot (self foo_watcher))
  /\ contents
       (run sample_decode
          [(foo_service_later, FireChildrenWatch ["node1:22"; "node3:80"]);
           (foo_service_later, FireDataWatch None)] foo_watcher)
       (snapshot (self foo_watcher))
     = contents foo_watcher (snapshot (self foo_watcher)).
Proof.
  assert (Hreach : reachable sample_decode foo_watcher) by apply reachable_init.
  assert (Hget : fst (get foo_watcher) = Ok (snapshot (self foo_watcher)))
    by reflexivity.
  split; [exact Hreach|]. split; [exact Hget|].
  exact (proj2 (proj2 (C9_snapshot_kept sample_decode foo_watcher
                         (snapshot (self foo_watcher))
                         [(foo_service_later, FireChildrenWatch ["node1:22"; "node3:80"]);
                          (foo_service_later, FireDataWatch None)]
                         Hreach Hget))).
Defined.

(** With a client that delivers nothing on registration, the callback given
    to the constructor is registered and not called. *)
Lemma C10_init_callback_not_called_by_init_witness :
  DataWatch_delivers foo_service_silent = []
  /\ ChildrenWatch_delivers foo_service_silent = []
  /\ _callbacks (self (snd (__init__ sample_decode foo_service_silent
                              "/services/foo" (Some 7) true))) = [7]
  /\ invocations (trace (snd (__init__ sample_decode foo_service_silent
                                "/services/foo" (Some 7) true))) = [].
Proof.
  split; [reflexivity|]. split; [reflexivity|].
  destruct (C10_init_callback_not_called_by_init sample_decode foo_service_silent
              "/services/foo" (Some 7) true) as (Hcbs & _ & Hnone).
  split; [exact Hcbs | exact (Hnone eq_refl eq_refl)].
Defined.

(** * More properties on the sample service *)

Lemma foo_watcher_active : _state (self foo_watcher) = true.
Proof. by vm_compute. Qed.

Lemma foo_watcher_callbacks : _callbacks (self foo_watcher) = [7].
Proof. by vm_compute. Qed.

(** The callback of the sample watcher is called with the current
    snapshot. *)
Lemma X1_dispatch_in_registration_order_witness :
  _state (self foo_watcher) = true
  /\ (forall cb, cb ∈ _callbacks (self foo_watcher) ->
        call foo_service cb (snapshot (self foo_watcher)) = None)
  /\ exists w',
       _execute_callbacks foo_service foo_watcher = (Ok tt, w')
       /\ invocations (trace w') =
            invocations (trace foo_watcher)
            ++ [(line182, 7, snapshot (self foo_watcher))].
Proof.
  assert (Hret : forall cb, cb ∈ _callbacks (self foo_watcher) ->
            call foo_service cb (snapshot (self foo_watcher)) = None)
    by (intros cb _; reflexivity).
  split; [exact foo_watcher_active|]. split; [exact Hret|].
  pose proof (X1_dispatch_in_registration_order foo_service foo_watcher
                foo_watcher_active Hret) as HX.
  destruct HX as (w' & Heq & _ & _ & Hinv).
  rewrite foo_watcher_callbacks in Hinv.
  exists w'. split; [exact Heq | exact Hinv].
Defined.

(** Of the callbacks 7, 8 and 9, the second raises: 7 and 8 are called, 9
    is not. *)
Lemma X2_raising_callback_stops_dispatch_witness :
  _state (self foo_watcher_three) = true
  /\ _callbacks (self foo_watcher_three) = [7] ++ 8 :: [9]
  /\ call foo_service_raising 8 (snapshot (self foo_watcher_three))
     = Some (OtherError "ValueError")
  /\ exists w',
       _execute_callbacks foo_service_raising foo_watcher_three
       = (Raise (OtherError "ValueError"), w')
       /\ invocations (trace w') =
            invocations (trace foo_watcher_three)
            ++ [(line182, 7, snapshot (self foo_watcher_three));
                (line182, 8, snapshot (self foo_watcher_three))].
Proof.
  assert (Hactive : _state (self foo_watcher_three) = true) by (by vm_compute).
  assert (Hcbs : _callbacks (self foo_watcher_three) = [7] ++ 8 :: [9])
    by (by vm_compute).
  assert (Hpre : forall c, c ∈ [7] ->
            call foo_service_raising c (snapshot (self foo_watcher_three)) = None).
  { intros c Hc. apply list_elem_of_singleton in Hc as ->. reflexivity. }
  assert (Hraise : call foo_service_raising 8 (snapshot (self foo_watcher_three))
                   = Some (OtherError "ValueError")) by reflexivity.
  split; [exact Hactive|]. split; [exact Hcbs|]. split; [exact Hraise|].
  pose proof (X2_raising_callback_stops_dispatch foo_service_raising
                foo_watcher_three [7] 8 [9] (OtherError "ValueError")
                Hactive Hcbs Hpre Hraise) as HX.
  destruct HX as (w' & Heq & _ & _ & Hinv).
  exists w'. split; [exact Heq | exact Hinv].
Defined.

(** Zookeeper cannot be reached when the data watch fires. *)
Lemma X3_data_fetch_failure_keeps_cache_witness :
  zk_get foo_unreachable (_path (self foo_watcher)) = Raise ConnectionLoss
  /\ exists w',
       _update_root_data sample_decode foo_unreachable None
         (Some (stat_version 6)) foo_watcher = (Raise ConnectionLoss, w')
       /\ self w' = self foo_watcher
       /\ invocations (trace w') = invocations (trace foo_watcher).
Proof.
  assert (Hget : zk_get foo_unreachable (_path (self foo_watcher))
                 = Raise ConnectionLoss) by reflexivity.
  split; [exact Hget|].
  pose proof (X3_data_fetch_failure_keeps_cache sample_decode foo_unreachable None
                (stat_version 6) foo_watcher ConnectionLoss Hget) as HX.
  destruct HX as (w' & Heq & Hself & _ & _ & Hinv & _).
  exists w'. split; [exact Heq|]. split; [exact Hself | exact Hinv].
Defined.

(** The children are listed as [node1:22], [node2:22], [node3:80] and
    [node2:22] is gone when it is fetched. *)
Lemma X4_child_fetch_failure_keeps_children_witness :
  (forall child, child ∈ ["node1:22"] ->
     exists raw st,
       zk_get foo_service_later (_path (self foo_watcher) +:+ "/" +:+ child)
       = Ok (raw, st))
  /\ zk_get foo_service_later (_path (self foo_watcher) +:+ "/" +:+ "node2:22")
     = Raise NoNodeError
  /\ exists w',
       _update_child_list sample_decode foo_service_later
         (["node1:22"] ++ "node2:22" :: ["node3:80"]) foo_watcher
       = (Raise NoNodeError, w')
       /\ self w' = self foo_watcher
       /\ fetches (trace w') =
            fetches (trace foo_watcher)
            ++ ["/services/foo/node1:22"; "/services/foo/node2:22"].
Proof.
  assert (Hok : forall child, child ∈ ["node1:22"] ->
            exists raw st,
              zk_get foo_service_later (_path (self foo_watcher) +:+ "/" +:+ child)
              = Ok (raw, st)).
  { intros child Hc. apply list_elem_of_singleton in Hc as ->.
    eexists _, _. vm_compute. reflexivity. }
  assert (Hfail : zk_get foo_service_later
                    (_path (self foo_watcher) +:+ "/" +:+ "node2:22")
                  = Raise NoNodeError) by (by vm_compute).
  split; [exact Hok|]. split; [exact Hfail|].
  pose proof (X4_child_fetch_failure_keeps_children sample_decode foo_service_later
                ["node1:22"] "node2:22" ["node3:80"] foo_watcher NoNodeError
                Hok Hfail) as HX.
  destruct HX as (w' & Heq & Hself & _ & _ & Hf).
  rewrite foo_watcher_path in Hf.
  exists w'. split; [exact Heq|]. split; [exact Hself | exact Hf].
Defined.

(** The data of [/services/foo] changes: the callback sees the new data. *)
Lemma X5_data_change_dispatches_new_snapshot_witness :
  _state (self foo_watcher) = true
  /\ zk_get foo_service_later (_path (self foo_watcher))
     = Ok (Some "env=staging", stat_version 6)
  /\ callbacks_return foo_service_later
  /\ exists w',
       _update_root_data sample_decode foo_service_later None
         (Some (stat_version 6)) foo_watcher = (Ok tt, w')
       /\ invocations (trace w') =
            invocations (trace foo_watcher)
            ++ [(line182, 7,
                 {| stat := Some (stat_version 6); path := _path (self foo_watcher);
                    data := sample_decode (Some "env=staging");
                    children := _children (self foo_watcher) |})].
Proof.
  assert (Hget : zk_get foo_service_later (_path (self foo_watcher))
                 = Ok (Some "env=staging", stat_version 6)) by (by vm_compute).
  assert (Hret : callbacks_return foo_service_later) by (intros ? ?; reflexivity).
  split; [exact foo_watcher_active|]. split; [exact Hget|]. split; [exact Hret|].
  pose proof (X5_data_change_dispatches_new_snapshot sample_decode foo_service_later
                None (stat_version 6) foo_watcher (Some "env=staging")
                (stat_version 6) foo_watcher_active Hget Hret) as HX.
  destruct HX as (w' & Heq & _ & Hinv).
  rewrite foo_watcher_callbacks in Hinv.
  exists w'. split; [exact Heq | exact Hinv].
Defined.

(** The children change: the callback sees the snapshot with the new
    dict. *)
Lemma X6_child_change_dispatches_new_snapshot_witness :
  _state (self foo_watcher) = true
  /\ (forall child, child ∈ ["node1:22"; "node3:80"] ->
        exists raw st,
          zk_get foo_service_later (_path (self foo_watcher) +:+ "/" +:+ child)
          = Ok (raw, st))
  /\ callbacks_return foo_service_later
  /\ exists w' snap,
       _update_child_list sample_decode foo_service_later
         ["node1:22"; "node3:80"] foo_watcher = (Ok tt, w')
       /\ fst (get w') = Ok snap
       /\ invocations (trace w') =
            invocations (trace foo_watcher) ++ [(line182, 7, snap)].
Proof.
  assert (Hok : forall child, child ∈ ["node1:22"; "node3:80"] ->
            exists raw st,
              zk_get foo_service_later (_path (self foo_watcher) +:+ "/" +:+ child)
              = Ok (raw, st)).
  { intros child Hin. apply elem_of_cons in Hin as [->|Hin].
    - eexists _, _. vm_compute. reflexivity.
    - apply list_elem_of_singleton in Hin as ->.
      eexists _, _. vm_compute. reflexivity. }
  assert (Hret : callbacks_return foo_service_later) by (intros ? ?; reflexivity).
  split; [exact foo_watcher_active|]. split; [exact Hok|]. split; [exact Hret|].
  pose proof (X6_child_change_dispatches_new_snapshot sample_decode foo_service_later
                ["node1:22"; "node3:80"] foo_watcher foo_watcher_active Hok Hret)
    as HX.
  destruct HX as (w' & snap & Heq & Hsnap & _ & _ & _ & Hinv).
  rewrite foo_watcher_callbacks in Hinv.
  exists w', snap. split; [exact Heq|]. split; [exact Hsnap | exact Hinv].
Defined.

(** The registry of the watcher with three callbacks. *)
Lemma X7_registry_without_duplicates_witness :
  reachable sample_decode foo_watcher_three
  /\ NoDup (_callbacks (self foo_watcher_three)).
Proof.
  assert (Hreach : reachable sample_decode foo_watcher_three).
  { apply reachable_perform, reachable_perform, reachable_init. }
  split; [exact Hreach|].
  exact (X7_registry_without_duplicates sample_decode foo_watcher_three Hreach).
Defined.

(** [add_callback] on the sample watcher goes nowhere near Zookeeper. *)
Lemma X10_methods_stay_local_witness :
  ~ is_notification (CallAddCallback 9)
  /\ fetches (trace (perform sample_decode foo_service (CallAddCallback 9) foo_watcher))
     = fetches (trace foo_watcher)
  /\ heap (perform sample_decode foo_service (CallAddCallback 9) foo_watcher)
     = heap foo_watcher.
Proof.
  assert (Hc : ~ is_notification (CallAddCallback 9)) by (intros []).
  split; [exact Hc|].
  pose proof (X10_methods_stay_local sample_decode foo_service (CallAddCallback 9)
                foo_watcher Hc) as HX.
  destruct HX as (Hf & _ & Hheap & _).
  split; [exact Hf | exact Hheap].
Defined.

(** Built with [watch_children=False], the watcher ignores the children
    for good. *)
Lemma X12_no_children_without_children_watch_witness :
  (false = false \/ zk_exists foo_service "/services/foo" = Ok None)
  /\ children_watch
       (run sample_decode
          [(foo_service_later, FireChildrenWatch ["node1:22"; "node3:80"]);
           (foo_service_later, FireDataWatch (Some (stat_version 6)))]
          (snd (__init__ sample_decode foo_service "/services/foo" (Some 7) false)))
     = false.
Proof.
  assert (Hno : false = false \/ zk_exists foo_service "/services/foo" = Ok None)
    by (left; reflexivity).
  split; [exact Hno|].
  exact (proj1 (X12_no_children_without_children_watch sample_decode foo_service
                  "/services/foo" (Some 7) false
                  [(foo_service_later, FireChildrenWatch ["node1:22"; "node3:80"]);
                   (foo_service_later, FireDataWatch (Some (stat_version 6)))]
                  Hno)).
Defined.

(** [stop(); stop(); start()] leaves the watcher active. *)
Lemma X13_flag_is_last_call_witness :
  Forall (fun ec : @Env string * Call => is_flag_call ec.2)
    [(foo_service, CallStop); (foo_service, CallStop)]
  /\ is_flag_call CallStart
  /\ run sample_decode
       ([(foo_service, CallStop); (foo_service, CallStop)] ++ [(foo_service, CallStart)])
       foo_watcher
     = with_self (set_state true (self foo_watcher)) foo_watcher.
Proof.
  assert (Hcalls : Forall (fun ec : @Env string * Call => is_flag_call ec.2)
                     [(foo_service, CallStop); (foo_service, CallStop)])
    by (repeat constructor).
  assert (Hc : is_flag_call CallStart) by exact I.
  split; [exact Hcalls|]. split; [exact Hc|].
  exact (X13_flag_is_last_call sample_decode
           [(foo_service, CallStop); (foo_service, CallStop)] foo_service CallStart
           foo_watcher Hcalls Hc).
Defined.

(** The sample watcher itself: built on [foo_service], it holds the data of
    [/services/foo] and its two children, and the callback was called
    twice. *)
Lemma X14_construction_fills_cache_witness :
  DataWatch_delivers foo_service = [Some (stat_version 5)]
  /\ ChildrenWatch_delivers foo_service = [["node1:22"; "node2:22"]]
  /\ zk_get foo_service "/services/foo" = Ok (Some "env=prod", stat_version 5)
  /\ zk_exists foo_service "/services/foo" = Ok (Some (stat_version 5))
  /\ (forall child, child ∈ ["node1:22"; "node2:22"] ->
        exists rc stc,
          zk_get foo_service ("/services/foo" +:+ "/" +:+ child) = Ok (rc, stc))
  /\ callbacks_return foo_service
  /\ exists w,
       __init__ sample_decode foo_service "/services/foo" (Some 7) true = (Ok tt, w)
       /\ fetches (trace w) = ["/services/foo"; "/services/foo/node1:22";
                               "/services/foo/node2:22"]
       /\ map (fun i => (i.1.1, i.1.2)) (invocations (trace w))
          = [(line182, 7); (line182, 7)].
Proof.
  assert (Hok : forall child, child ∈ ["node1:22"; "node2:22"] ->
            exists rc stc,
              zk_get foo_service ("/services/foo" +:+ "/" +:+ child) = Ok (rc, stc)).
  { intros child Hin. apply elem_of_cons in Hin as [->|Hin].
    - eexists _, _. vm_compute. reflexivity.
    - apply list_elem_of_singleton in Hin as ->.
      eexists _, _. vm_compute. reflexivity. }
  assert (Hret : callbacks_return foo_service) by (intros ? ?; reflexivity).
  split; [reflexivity|]. split; [reflexivity|]. split; [reflexivity|].
  split; [reflexivity|]. split; [exact Hok|]. split; [exact Hret|].
  pose proof (X14_construction_fills_cache sample_decode foo_service "/services/foo" 7
                (stat_version 5) (Some "env=prod") (stat_version 5) (stat_version 5)
                ["node1:22"; "node2:22"] eq_refl eq_refl eq_refl eq_refl Hok Hret)
    as HX.
  destruct HX as (w & snap & m & Heq & _ & _ & _ & _ & _ & _ & _ & Hf & Hinv).
  exists w. split; [exact Heq|]. split; [exact Hf | exact Hinv].
Defined.
